(** * The EigenFace attendance service (backend/attendence.py)

    A shallow embedding of the Flask service that registers faces, retrains an
    EigenFace recognizer and marks attendance, followed by the properties its
    specification states about it.

    Layout of the development:
    - Python builtins the service relies on ([str], [int], [dict], [strftime]);
    - the OpenCV interface ([cv2]) as a type class, since the library is not
      part of the repository;
    - the durable state (labels.json, dataset/, model_eigen.yml,
      attendance.csv) and the in-memory recognizer as one record, threaded
      through a state-and-exception monad;
    - the helper functions and the two request handlers, one definition per
      source function;
    - the theorems.

    Faults are modelled where the source guards against them or the
    specification speaks of them: [open] and [json.load] on labels.json,
    [items] and [get] on what was loaded, [int] on the registry keys, and a
    write of the model file that does not run to its end.  Other calls into
    OpenCV are total functions of the interface, and the remaining writes
    (samples, registry, ledger) succeed. *)

From Stdlib Require Import ZArith List String Ascii Bool Lia.
From Stdlib Require Import Floats.PrimFloat.
From Stdlib Require Import DecimalString DecimalZ DecimalPos DecimalN.
Import ListNotations.

Local Open Scope string_scope.
Local Open Scope Z_scope.

(* ------------------------------------------------------------------ *)
(** ** Python builtins *)

(** [str(n)] for an [int]: the decimal numeral, with a minus sign when
    negative. *)
Definition py_str (z : Z) : string := NilZero.string_of_int (Z.to_int z).

Definition is_digit (c : ascii) : bool :=
  ((48 <=? nat_of_ascii c) && (nat_of_ascii c <=? 57))%nat.

(** [str.isspace] on the ASCII range: tab, LF, VT, FF, CR, the four
    separators 0x1c-0x1f and the blank. *)
Definition isspace (c : ascii) : bool :=
  (((9 <=? nat_of_ascii c) && (nat_of_ascii c <=? 13))
   || ((28 <=? nat_of_ascii c) && (nat_of_ascii c <=? 32)))%nat.

Fixpoint lstrip (s : string) : string :=
  match s with
  | EmptyString => EmptyString
  | String c r => if isspace c then lstrip r else s
  end.

Fixpoint rstrip (s : string) : string :=
  match s with
  | EmptyString => EmptyString
  | String c r =>
      match rstrip r with
      | EmptyString => if isspace c then EmptyString else String c EmptyString
      | r' => String c r'
      end
  end.

Definition strip (s : string) : string := lstrip (rstrip s).

(** The digits of an integer literal, underscores dropped: a single
    underscore may stand between two digits and nowhere else. *)
Fixpoint int_digits (after_digit : bool) (s : string) : option string :=
  match s with
  | EmptyString => if after_digit then Some EmptyString else None
  | String c r =>
      if is_digit c then option_map (String c) (int_digits true r)
      else if Ascii.eqb c "_" then
             (if after_digit then int_digits false r else None)
      else None
  end.

Definition int_literal (s : string) : option Z :=
  match int_digits false s with
  | Some ds => option_map Z.of_uint (NilEmpty.uint_of_string ds)
  | None => None
  end.

(** [int(s)] for a [str] in base 10; [None] stands for [ValueError].
    Strings are byte strings here, so digits and blanks outside ASCII are not
    recognised. *)
Definition py_int (s : string) : option Z :=
  match strip s with
  | String "-" r => option_map Z.opp (int_literal r)
  | String "+" r => int_literal r
  | t => int_literal t
  end.

(** [max(xs)] of a list of ints; [None] stands for the [ValueError] on an
    empty list. *)
Definition py_max (xs : list Z) : option Z :=
  match xs with
  | [] => None
  | x :: r => Some (fold_left Z.max r x)
  end.

(** [s.lower()] on ASCII letters. *)
Definition lower_char (c : ascii) : ascii :=
  if ((65 <=? nat_of_ascii c) && (nat_of_ascii c <=? 90))%nat
  then ascii_of_nat (nat_of_ascii c + 32) else c.

Fixpoint lower (s : string) : string :=
  match s with
  | EmptyString => EmptyString
  | String c r => String (lower_char c) (lower r)
  end.

(** [s.endswith(suffix)]. *)
Definition endswith (s suffix : string) : bool :=
  let n := String.length s in
  let k := String.length suffix in
  ((k <=? n)%nat && String.eqb (substring (n - k) k s) suffix).

(** A [dict] from [str] to [str], in insertion order. *)
Definition dict := list (string * string).

(** [d.get(k, default)]. *)
Fixpoint dict_get (d : dict) (k default : string) : string :=
  match d with
  | [] => default
  | (k', v) :: r => if String.eqb k' k then v else dict_get r k default
  end.

(** [d[k] = v]: an existing key keeps its place, a new one goes last. *)
Fixpoint dict_set (d : dict) (k v : string) : dict :=
  match d with
  | [] => [(k, v)]
  | (k', v') :: r =>
      if String.eqb k' k then (k', v) :: r else (k', v') :: dict_set r k v
  end.

Definition dict_keys (d : dict) : list string := map fst d.

Definition dict_has (d : dict) (k : string) : bool :=
  existsb (String.eqb k) (dict_keys d).

(** [list(map(int, keys))]: fails as soon as one key is not a numeral. *)
Fixpoint map_int (ks : list string) : option (list Z) :=
  match ks with
  | [] => Some []
  | k :: r =>
      match py_int k with
      | None => None
      | Some n => option_map (cons n) (map_int r)
      end
  end.

(* ------------------------------------------------------------------ *)
(** ** [datetime] and [strftime] *)

Record datetime := mkDatetime {
  year : Z; month : Z; day : Z;
  hour : Z; minute : Z; second : Z; microsecond : Z
}.

(** The ranges the [datetime] type guarantees; the year starts at 1000 so
    that [%Y] has four digits on every platform. *)
Definition wf_datetime (t : datetime) : Prop :=
  1000 <= year t <= 9999 /\ 1 <= month t <= 12 /\ 1 <= day t <= 31 /\
  0 <= hour t < 24 /\ 0 <= minute t < 60 /\ 0 <= second t < 60 /\
  0 <= microsecond t < 1000000.

Definition digit_char (d : Z) : ascii := ascii_of_nat (48 + Z.to_nat d).

(** [n] in decimal on exactly [width] digits, zero padded. *)
Fixpoint zero_padded (width : nat) (n : Z) : string :=
  match width with
  | O => EmptyString
  | S w => zero_padded w (n / 10) ++ String (digit_char (n mod 10)) EmptyString
  end.

Definition directive (c : ascii) (t : datetime) : string :=
  if Ascii.eqb c "Y" then zero_padded 4 (year t)
  else if Ascii.eqb c "m" then zero_padded 2 (month t)
  else if Ascii.eqb c "d" then zero_padded 2 (day t)
  else if Ascii.eqb c "H" then zero_padded 2 (hour t)
  else if Ascii.eqb c "M" then zero_padded 2 (minute t)
  else if Ascii.eqb c "S" then zero_padded 2 (second t)
  else if Ascii.eqb c "f" then zero_padded 6 (microsecond t)
  else if Ascii.eqb c "%" then String "%" EmptyString
  else String "%" (String c EmptyString).

(** [t.strftime(fmt)] for the directives the service uses. *)
Fixpoint strftime (fmt : string) (t : datetime) : string :=
  match fmt with
  | EmptyString => EmptyString
  | String c r =>
      if Ascii.eqb c "%" then
        match r with
        | String c' r' => directive c' t ++ strftime r' t
        | EmptyString => String c EmptyString
        end
      else String c (strftime r t)
  end.

(** Reading a ledger timestamp back: the inverse of
    [strftime "%Y-%m-%d %H:%M:%S"], used to state properties of what the
    ledger holds.  [None] when the text does not have that layout. *)
Definition digit_val (c : ascii) : option Z :=
  if is_digit c then Some (Z.of_nat (nat_of_ascii c) - 48) else None.

Fixpoint number_acc (acc : Z) (s : string) : option Z :=
  match s with
  | EmptyString => Some acc
  | String c r =>
      match digit_val c with
      | Some d => number_acc (10 * acc + d) r
      | None => None
      end
  end.

Definition field (s : string) (from len : nat) : option Z :=
  number_acc 0 (substring from len s).

Definition sep (s : string) (n : nat) (c : ascii) : bool :=
  match String.get n s with
  | Some c' => Ascii.eqb c' c
  | None => false
  end.

Definition read_timestamp (s : string) : option datetime :=
  if ((String.length s =? 19)%nat && sep s 4 "-" && sep s 7 "-"
      && sep s 10 " " && sep s 13 ":" && sep s 16 ":")%bool
  then
    match field s 0 4, field s 5 2, field s 8 2,
          field s 11 2, field s 14 2, field s 17 2 with
    | Some y, Some mo, Some d, Some h, Some mi, Some se =>
        Some (mkDatetime y mo d h mi se 0)
    | _, _, _, _, _, _ => None
    end
  else None.

(** A numbering of datetimes that respects their order (year first,
    microsecond last) on well-formed values. *)
Definition instant (t : datetime) : Z :=
  (((((year t * 13 + month t) * 32 + day t) * 24 + hour t) * 60
    + minute t) * 60 + second t) * 1000000 + microsecond t.

Definition dt_le (a b : datetime) : Prop := instant a <= instant b.
Definition dt_lt (a b : datetime) : Prop := instant a < instant b.

(** [t.replace(microsecond=0)]. *)
Definition whole_second (t : datetime) : datetime :=
  mkDatetime (year t) (month t) (day t) (hour t) (minute t) (second t) 0.

(* ------------------------------------------------------------------ *)
(** ** Images and the OpenCV interface *)

(** A [numpy] image: its shape and its samples. *)
Record Mat := mkMat {
  rows : nat; cols : nat; channels : nat;
  sample : nat -> nat -> nat -> Z
}.

Definition shape (m : Mat) : nat * nat := (rows m, cols m).

(** A detection [(x, y, w, h)]. *)
Definition Rect := (nat * nat * nat * nat)%type.

(** Length of [a[start:stop]] for an axis of [len] entries. *)
Definition slice_len (start stop len : nat) : nat :=
  (Nat.min stop len - Nat.min start len)%nat.

(** [m[y0:y1, x0:x1]]. *)
Definition crop (m : Mat) (y0 y1 x0 x1 : nat) : Mat :=
  {| rows := slice_len y0 y1 (rows m);
     cols := slice_len x0 x1 (cols m);
     channels := channels m;
     sample := fun i j c => sample m (y0 + i) (x0 + j) c |}.

Definition FIXED_SIZE : nat * nat := (200%nat, 200%nat).

Definition THRESHOLD : float := 5500%float.

(** What the service uses of [cv2].  [Model] is the state of a trained
    EigenFace recognizer, which is also what [save] writes and [read] loads.
    The cascade is the frontal-face one, called with [scaleFactor=1.3] and
    [minNeighbors=5].  [jpg_roundtrip] is the image [imread] gives back for
    a file that [imwrite] wrote as JPEG. *)
Class OpenCV := {
  Model : Type;
  imdecode : list Byte.byte -> option Mat;
  cvtColor_BGR2GRAY : Mat -> Mat;
  detectMultiScale : Mat -> list Rect;
  resize : Mat -> nat * nat -> Mat;
  jpg_roundtrip : Mat -> Mat;
  recognizer_train : list Mat -> list Z -> Model;
  recognizer_predict : Model -> Mat -> Z * float
}.

(** The contract of the [cv2] calls that the shape of a located face rests
    on: [resize] returns an image of the requested [(width, height)] with the
    channels of its input, [cvtColor] to gray yields one channel, and the
    cascade reports rectangles of positive size inside the image. *)
Record OpenCV_contract `{OpenCV} : Prop := {
  resize_shape : forall m w h,
    (0 < rows m)%nat -> (0 < cols m)%nat ->
    rows (resize m (w, h)) = h /\ cols (resize m (w, h)) = w /\
    channels (resize m (w, h)) = channels m;
  gray_shape : forall m,
    rows (cvtColor_BGR2GRAY m) = rows m /\
    cols (cvtColor_BGR2GRAY m) = cols m /\
    channels (cvtColor_BGR2GRAY m) = 1%nat;
  cascade_in_image : forall g x y w h,
    In (x, y, w, h) (detectMultiScale g) ->
    (0 < w /\ 0 < h /\ x + w <= cols g /\ y + h <= rows g)%nat
}.

(* ------------------------------------------------------------------ *)
(** ** State, exceptions and responses *)

Inductive exn := OSError | ValueError | AttributeError | Cv2Error.

Inductive outcome (A : Type) :=
| Ret (a : A)
| Raise (e : exn).
Arguments Ret {A} a.
Arguments Raise {A} e.

(** What [json.load] returns, as far as the service can tell: an object
    from [str] to [str], or a JSON value of another kind (a list, a string,
    a number, a boolean, null), which has neither [items] nor [get]. *)
Inductive pyobj :=
| PyDict (d : dict)
| PyOther.

(** labels.json as the service meets it: not there, there but [open] fails,
    there but [json.load] fails, or holding a JSON value. *)
Inductive labels_store :=
| Missing
| Unopenable
| Garbled
| Holds (v : pyobj).

(** [labels_dict.items()]. *)
Definition py_items (labels_dict : pyobj) : outcome dict :=
  match labels_dict with
  | PyDict d => Ret d
  | PyOther => Raise AttributeError
  end.

(** [labels_dict.get(k, default)]. *)
Definition py_get (labels_dict : pyobj) (k default : string) : outcome string :=
  match labels_dict with
  | PyDict d => Ret (dict_get d k default)
  | PyOther => Raise AttributeError
  end.

(** An entry of dataset/: a plain file, or a folder whose files are given
    with what [cv2.imread(path, IMREAD_GRAYSCALE)] returns for them. *)
Inductive node :=
| PlainFile
| Folder (files : list (string * option Mat)).

Inductive jvalue :=
| JStr (s : string)
| JFloat (x : float).

(** [jsonify(body), status]. *)
Definition response := (list (string * jvalue) * nat)%type.

Record register_request := mkRegister {
  form_name : option string;
  register_image : option (list Byte.byte)
}.

Record recognize_request := mkRecognize {
  recognize_image : option (list Byte.byte)
}.

Section Service.
Context `{cv : OpenCV}.

(** model_eigen.yml: not there, left unfinished by a write that failed
    part-way, or holding a saved recognizer. *)
Inductive model_file :=
| NoModel
| Torn
| Saved (m : Model).

(** The files the service owns, and the process-wide [recognizer] object. *)
Record World := mkWorld {
  labels_json : labels_store;
  dataset : option (list (string * node));
  model_yml : model_file;
  attendance_csv : option (list (list string));
  recognizer : option Model
}.

Definition M (A : Type) : Type := World -> World * outcome A.

Definition ret {A} (a : A) : M A := fun w => (w, Ret a).
Definition raise {A} (e : exn) : M A := fun w => (w, Raise e).
Definition bind {A B} (m : M A) (f : A -> M B) : M B :=
  fun w =>
    match m w with
    | (w', Ret a) => f a w'
    | (w', Raise e) => (w', Raise e)
    end.
Definition gets {A} (f : World -> A) : M A := fun w => (w, Ret (f w)).
Definition modify (f : World -> World) : M unit := fun w => (f w, Ret tt).
Definition lift {A} (o : outcome A) : M A := fun w => (w, o).

Notation "x <- m ;; k" := (bind m (fun x => k))
  (at level 61, m at next level, right associativity).
Notation "m ;; k" := (bind m (fun _ => k))
  (at level 61, right associativity).

Definition with_labels_json (v : labels_store) (w : World) : World :=
  mkWorld v (dataset w) (model_yml w) (attendance_csv w) (recognizer w).
Definition with_dataset (v : option (list (string * node))) (w : World) : World :=
  mkWorld (labels_json w) v (model_yml w) (attendance_csv w) (recognizer w).
Definition with_model_yml (v : model_file) (w : World) : World :=
  mkWorld (labels_json w) (dataset w) v (attendance_csv w) (recognizer w).
Definition with_attendance_csv (v : option (list (list string))) (w : World) : World :=
  mkWorld (labels_json w) (dataset w) (model_yml w) v (recognizer w).
Definition with_recognizer (v : option Model) (w : World) : World :=
  mkWorld (labels_json w) (dataset w) (model_yml w) (attendance_csv w) v.

(** The rows of the ledger; a file that is not there yet has none. *)
Definition ledger (w : World) : list (list string) :=
  match attendance_csv w with
  | Some rs => rs
  | None => []
  end.

(* ------------------------------------------------------------------ *)
(** ** Helper functions *)

Definition load_labels : M pyobj :=
  st <- gets labels_json ;;
  match st with
  | Missing => ret (PyDict [])     (* not os.path.exists(LABELS_FILE) *)
  | Unopenable => raise OSError    (* open(LABELS_FILE, "r"), outside the try *)
  | Garbled => ret (PyDict [])     (* except: return {} *)
  | Holds v => ret v               (* return json.load(f) *)
  end.

(** What [json.dump] writes of a dict from [str] to [str], [json.load]
    reads back as the same dict. *)
Definition save_labels (labels_dict : dict) : M unit :=
  st <- gets labels_json ;;
  match st with
  | Unopenable => raise OSError    (* open(LABELS_FILE, "w") *)
  | _ => modify (with_labels_json (Holds (PyDict labels_dict)))
  end.

Definition get_next_label_id (labels_dict : dict) : outcome string :=
  match labels_dict with
  | [] => Ret "1"
  | _ =>
      match map_int (dict_keys labels_dict) with
      | None => Raise ValueError
      | Some existing_ids =>
          match py_max existing_ids with
          | None => Raise ValueError
          | Some m => Ret (py_str (m + 1))
          end
      end
  end.

Definition mark_attendance (now : datetime) (name : string) : M unit :=
  modify (fun w =>
    with_attendance_csv
      (Some (ledger w ++ [[name; strftime "%Y-%m-%d %H:%M:%S" now]])%list) w).

Definition detect_face (img : Mat) : M (option Mat) :=
  let gray := cvtColor_BGR2GRAY img in
  let faces := detectMultiScale gray in
  match faces with
  | [] => ret None
  | (x, y, w, h) :: _ =>
      let cropped_face := crop gray y (y + h) x (x + w) in
      ret (Some (resize cropped_face FIXED_SIZE))
  end.

Definition has_image_ext (filename : string) : bool :=
  let f := lower filename in
  endswith f ".png" || endswith f ".jpg" || endswith f ".jpeg".

(** The entry of dataset/ that [os.path.join(DATASET_DIR, name)] names: the
    child called [name].  Label ids are numerals, which name children. *)
Fixpoint lookup_node (ds : list (string * node)) (name : string) : option node :=
  match ds with
  | [] => None
  | (n, e) :: r => if String.eqb n name then Some e else lookup_node r name
  end.

(** The inner loop of [train_model], over [os.listdir(person_folder)]. *)
Fixpoint scan_folder (label_id_str : string) (files : list (string * option Mat))
    (acc : list Mat * list Z) : outcome (list Mat * list Z) :=
  match files with
  | [] => Ret acc
  | (filename, content) :: rest =>
      if has_image_ext filename then
        match content with
        | None => scan_folder label_id_str rest acc
        | Some gray_img =>
            match py_int label_id_str with
            | None => Raise ValueError
            | Some l =>
                scan_folder label_id_str rest
                  ((fst acc ++ [resize gray_img FIXED_SIZE])%list,
                   (snd acc ++ [l])%list)
            end
        end
      else scan_folder label_id_str rest acc
  end.

(** The outer loop of [train_model], over [labels_dict.items()]. *)
Fixpoint scan_dataset (items : dict) (ds : list (string * node))
    (acc : list Mat * list Z) : outcome (list Mat * list Z) :=
  match items with
  | [] => Ret acc
  | (label_id_str, _) :: rest =>
      match lookup_node ds label_id_str with
      | Some (Folder files) =>
          match scan_folder label_id_str files acc with
          | Ret acc' => scan_dataset rest ds acc'
          | Raise e => Raise e
          end
      | _ => scan_dataset rest ds acc
      end
  end.

Definition entries (w : World) : list (string * node) :=
  match dataset w with
  | Some ds => ds
  | None => []
  end.

(** [recognizer.save(MODEL_FILE)].  The file named is the live model file
    and cv2 writes it in place: its [FileStorage] opens the path for
    writing, which empties it, and fills it as it goes.  [write_completes]
    says whether the write runs to its end (the disk takes it, the process
    lives); when it does not, the call does not return, which is modelled
    as raising, and the file is left unfinished. *)
Definition recognizer_save (write_completes : bool) : M unit :=
  r <- gets recognizer ;;
  match r with
  | Some m =>
      if write_completes then modify (with_model_yml (Saved m))
      else modify (with_model_yml Torn) ;; raise Cv2Error
  | None => raise Cv2Error
  end.

Definition train_model (write_completes : bool) : M bool :=
  labels_dict <- load_labels ;;
  modify (fun w => with_dataset (Some (entries w)) w) ;;
  ds <- gets entries ;;
  items <- lift (py_items labels_dict) ;;
  acc <- lift (scan_dataset items ds ([], [])) ;;
  let faces := fst acc in
  let labels := snd acc in
  if (List.length faces =? 0)%nat then ret false
  else
    modify (with_recognizer (Some (recognizer_train faces labels))) ;;
    recognizer_save write_completes ;;
    ret true.

Definition load_model : M bool :=
  file <- gets model_yml ;;
  match file with
  | Saved m => modify (with_recognizer (Some m)) ;; ret true
  | Torn => raise Cv2Error         (* recognizer.read of an unfinished file *)
  | NoModel => ret false           (* not os.path.exists(MODEL_FILE) *)
  end.

(* ------------------------------------------------------------------ *)
(** ** Request handlers *)

(** The loop over [labels_dict.items()] that stops at the first entry whose
    value is [name]: that entry's key, [None] when there is none. *)
Fixpoint find_name (items : dict) (name : string) : option string :=
  match items with
  | [] => None
  | (k, v) :: r => if String.eqb v name then Some k else find_name r name
  end.

(** [not label_id_str], for [None] or a [str]. *)
Definition falsy (label_id_str : option string) : bool :=
  match label_id_str with
  | None => true
  | Some k => String.eqb k ""
  end.

(** The body of [if not label_id_str:]. *)
Definition allocate_label (labels_dict : dict) (name : string) : M string :=
  label_id_str <- lift (get_next_label_id labels_dict) ;;
  save_labels (dict_set labels_dict label_id_str name) ;;
  ret label_id_str.

(** Lines 159-170 of [register_face]: the id under which [name] is
    registered, allocating and persisting a new one when the name is not
    in the registry yet. *)
Definition resolve_label (name : string) : M string :=
  labels_dict <- load_labels ;;
  items <- lift (py_items labels_dict) ;;
  let label_id_str := find_name items name in
  match label_id_str with
  | Some k =>
      if falsy label_id_str then allocate_label items name else ret k
  | None => allocate_label items name
  end.

Fixpoint put_node (ds : list (string * node)) (name : string) (e : node)
    : list (string * node) :=
  match ds with
  | [] => [(name, e)]
  | (n, e') :: r =>
      if String.eqb n name then (n, e) :: r else (n, e') :: put_node r name e
  end.

Fixpoint put_file (files : list (string * option Mat)) (filename : string)
    (content : option Mat) : list (string * option Mat) :=
  match files with
  | [] => [(filename, content)]
  | (n, c) :: r =>
      if String.eqb n filename then (n, content) :: r
      else (n, c) :: put_file r filename content
  end.

(** Lines 173-179 of [register_face]: make dataset/<label_id>/ when it is
    not there, then [cv2.imwrite] the face into it.  Writing below a plain
    file fails without an exception. *)
Definition save_sample (label_id_str filename : string) (face : Mat) : M unit :=
  modify (fun w =>
    match lookup_node (entries w) label_id_str with
    | None =>
        with_dataset
          (Some (put_node (entries w) label_id_str
                   (Folder [(filename, Some (jpg_roundtrip face))]))) w
    | Some (Folder files) =>
        with_dataset
          (Some (put_node (entries w) label_id_str
                   (Folder (put_file files filename (Some (jpg_roundtrip face)))))) w
    | Some PlainFile => w
    end).

(** The bodies the two routes answer with. *)
Definition fields_required : response :=
  ([("error", JStr "Name and image file are required")], 400%nat).
Definition image_required : response :=
  ([("error", JStr "Image file is required")], 400%nat).
Definition invalid_image : response :=
  ([("error", JStr "Invalid image")], 400%nat).
Definition no_face_register : response :=
  ([("error", JStr "No face detected")], 200%nat).
Definition registered_untrained : response :=
  ([("message", JStr "Registered face, but no data to train yet.")], 200%nat).
Definition registered (name : string) : response :=
  ([("message", JStr ("Successfully registered " ++ name))], 200%nat).
Definition no_face_recognize : response :=
  ([("message", JStr "No face detected"); ("name", JStr "Unknown")], 200%nat).
Definition model_not_trained : response :=
  ([("message", JStr "Model not trained yet"); ("name", JStr "Unknown")],
   200%nat).
Definition recognized (name : string) (confidence : float) : response :=
  ([("message", JStr ("Recognized " ++ name)); ("name", JStr name);
    ("confidence", JFloat confidence)], 200%nat).
Definition not_recognized (confidence : float) : response :=
  ([("message", JStr "Face not recognized"); ("name", JStr "Unknown");
    ("confidence", JFloat confidence)], 200%nat).

(** A field of a response body, as a client reads it. *)
Fixpoint body_get (body : list (string * jvalue)) (key : string) : option jvalue :=
  match body with
  | [] => None
  | (k, v) :: r => if String.eqb k key then Some v else body_get r key
  end.

Definition register_face (now : datetime) (write_completes : bool)
    (req : register_request) : M response :=
  match form_name req, register_image req with
  | Some name, Some image_bytes =>
      match imdecode image_bytes with
      | None => ret invalid_image
      | Some img =>
          face_cropped <- detect_face img ;;
          match face_cropped with
          | None => ret no_face_register
          | Some face =>
              label_id_str <- resolve_label name ;;
              save_sample label_id_str
                (strftime "%Y%m%d_%H%M%S%f" now ++ ".jpg") face ;;
              trained <- train_model write_completes ;;
              if negb trained then ret registered_untrained
              else ret (registered name)
          end
      end
  | _, _ => ret fields_required
  end.

Definition recognize_face (now : datetime) (req : recognize_request) : M response :=
  match recognize_image req with
  | None => ret image_required
  | Some image_bytes =>
      match imdecode image_bytes with
      | None => ret invalid_image
      | Some img =>
          face_cropped <- detect_face img ;;
          match face_cropped with
          | None => ret no_face_recognize
          | Some face =>
              loaded <- load_model ;;
              if negb loaded then ret model_not_trained
              else
                r <- gets recognizer ;;
                match r with
                | None => raise Cv2Error
                | Some m =>
                    let (label_id, confidence) := recognizer_predict m face in
                    if ltb confidence THRESHOLD then
                      labels_dict <- load_labels ;;
                      name <- lift (py_get labels_dict (py_str label_id)
                                      "Unknown") ;;
                      mark_attendance now name ;;
                      ret (recognized name confidence)
                    else ret (not_recognized confidence)
                end
          end
      end
  end.

End Service.

Notation "x <- m ;; k" := (bind m (fun x => k))
  (at level 61, m at next level, right associativity).
Notation "m ;; k" := (bind m (fun _ => k))
  (at level 61, right associativity).

(** Unfolds the monad down to functions on the state. *)
Ltac run := unfold bind, ret, raise, gets, modify, lift.

(* ------------------------------------------------------------------ *)
(** ** Vocabulary of the properties *)

Fixpoint all_digits (s : string) : bool :=
  match s with
  | EmptyString => true
  | String c r => is_digit c && all_digits r
  end.

(** The registry invariant: every key is a numeral.  It holds of the empty
    registry and every allocation keeps it ([numeric_keys_snoc]). *)
Definition numeric_keys (d : dict) : Prop :=
  exists ids, map_int (dict_keys d) = Some ids.

(** The text of a ledger timestamp, digit by digit. *)
Definition timestamp_text (t : datetime) : string :=
  let dg n k := digit_char (n / k mod 10) in
  String (dg (year t) 1000) (String (dg (year t) 100)
  (String (dg (year t) 10) (String (dg (year t) 1)
  (String "-" (String (dg (month t) 10) (String (dg (month t) 1)
  (String "-" (String (dg (day t) 10) (String (dg (day t) 1)
  (String " " (String (dg (hour t) 10) (String (dg (hour t) 1)
  (String ":" (String (dg (minute t) 10) (String (dg (minute t) 1)
  (String ":" (String (dg (second t) 10) (String (dg (second t) 1)
  EmptyString)))))))))))))))))).

Definition is_recognized (r : response) : Prop :=
  exists name confidence, r = recognized name confidence.

Definition is_rejected (r : response) : Prop :=
  exists confidence, r = not_recognized confidence.

(** The registry a store stands for: none when the file cannot be opened or
    holds JSON that is not an object, the empty one when the file is absent
    or does not parse. *)
Definition registry_of (st : labels_store) : option dict :=
  match st with
  | Missing | Garbled => Some []
  | Holds (PyDict d) => Some d
  | Unopenable | Holds PyOther => None
  end.

(** No sample would be collected by [train_model]: every registered id has
    no folder under dataset/, or a folder in which no file is an image that
    decodes.  An empty registry is the first case of this. *)
Definition corpus_empty (d : dict) (ds : list (string * node)) : Prop :=
  Forall (fun kv =>
    match lookup_node ds (fst kv) with
    | Some (Folder files) =>
        Forall (fun f => has_image_ext (fst f) = false \/ snd f = None) files
    | _ => True
    end) d.


(* ------------------------------------------------------------------ *)
(** ** A small OpenCV to run the service on concrete inputs

    An image decodes to a square of as many rows as there are bytes; the
    cascade reports the 2x2 corner of any image that has one; resizing is
    nearest neighbour; a model is the list of labels it was trained on and
    predicts the first of them at a fixed distance. *)

Definition toy_imdecode (bs : list Byte.byte) : option Mat :=
  match bs with
  | [] => None
  | _ => Some (mkMat (List.length bs) (List.length bs) 3 (fun _ _ _ => 128))
  end.

Definition toy_gray (m : Mat) : Mat :=
  mkMat (rows m) (cols m) 1 (fun i j _ => sample m i j 0%nat).

Definition toy_detect (g : Mat) : list Rect :=
  if ((2 <=? rows g) && (2 <=? cols g))%nat
  then [(0%nat, 0%nat, 2%nat, 2%nat)] else [].

Definition toy_resize (m : Mat) (dsize : nat * nat) : Mat :=
  mkMat (snd dsize) (fst dsize) (channels m)
    (fun i j c => sample m (i * rows m / snd dsize) (j * cols m / fst dsize) c).

Definition toy_cv (distance : float) : OpenCV :=
  {| Model := list Z;
     imdecode := toy_imdecode;
     cvtColor_BGR2GRAY := toy_gray;
     detectMultiScale := toy_detect;
     resize := toy_resize;
     jpg_roundtrip := fun m => m;
     recognizer_train := fun _ labels => labels;
     recognizer_predict := fun m _ => (hd 0 m, distance) |}.

(** Two uploads: one byte decodes to a 1x1 image without a face, two bytes to
    a 2x2 image with one. *)
Definition faceless_upload : list Byte.byte := [Byte.x00].
Definition face_upload : list Byte.byte := [Byte.x00; Byte.x01].

(** A request that starts half a second past noon and reads the clock two
    tenths of a second later. *)
Definition request_start : datetime := mkDatetime 2024 5 17 12 0 0 500000.
Definition clock_reading : datetime := mkDatetime 2024 5 17 12 0 0 700000.

(** A service with one registered person, one stored sample and a model
    trained on it. *)
Definition alice_world (distance : float) : @World (toy_cv distance) :=
  @mkWorld (toy_cv distance)
    (Holds (PyDict [("1", "alice")]))
    (Some [("1", Folder [("20240517_115900000000.jpg",
                          Some (mkMat 200 200 1 (fun _ _ _ => 128)))])])
    (@Saved (toy_cv distance) [1])
    (Some [["alice"; "2024-05-17 11:59:30"]])
    None.

(** The same service once labels.json can no longer be opened. *)
Definition locked_world (distance : float) : @World (toy_cv distance) :=
  with_labels_json Unopenable (alice_world distance).

(** The same service once labels.json holds a JSON list. *)
Definition list_world (distance : float) : @World (toy_cv distance) :=
  with_labels_json (Holds PyOther) (alice_world distance).

(** A fresh deployment: no file written yet. *)
Definition fresh_world (distance : float) : @World (toy_cv distance) :=
  @mkWorld (toy_cv distance) Missing None NoModel None None.


(** A model trained when label 7 was registered, used after the registry
    lost that entry. *)
Definition stale_world (distance : float) : @World (toy_cv distance) :=
  @with_model_yml (toy_cv distance) (@Saved (toy_cv distance) [7]) (alice_world distance).

(* ------------------------------------------------------------------ *)
(** ** Start-up, and more vocabulary *)

(** The [__main__] block before [app.run]: make dataset/, a registry
    holding [{}] and an empty ledger, each only when it is not there. *)
Definition main_init `{cv : OpenCV} : M unit :=
  modify (fun w => match dataset w with
                   | None => with_dataset (Some []) w
                   | Some _ => w
                   end) ;;
  modify (fun w => match labels_json w with
                   | Missing => with_labels_json (Holds (PyDict [])) w
                   | _ => w
                   end) ;;
  modify (fun w => match attendance_csv w with
                   | None => with_attendance_csv (Some []) w
                   | Some _ => w
                   end).

(** The name [register_face] gives the sample it writes. *)
Definition sample_filename (now : datetime) : string :=
  strftime "%Y%m%d_%H%M%S%f" now ++ ".jpg".

(** A computation leaves an observation of the state as it found it,
    however it ends. *)
Definition preserves `{cv : OpenCV} {A X : Type} (f : World -> X) (m : M A)
    : Prop :=
  forall w, f (fst (m w)) = f w.

(** Keys as the service writes them: [str] of an integer, each once. *)
Definition canonical_keys (d : dict) : Prop :=
  Forall (fun k => exists n, k = py_str n) (dict_keys d).

Definition registry_inv (d : dict) : Prop :=
  canonical_keys d /\ NoDup (dict_keys d).








(** Every stored sample that decodes has pixels ([cv2.imread] returns
    [None] rather than an empty image). *)
Definition samples_nonempty (ds : list (string * node)) : Prop :=
  forall k files filename img,
    lookup_node ds k = Some (Folder files) ->
    In (filename, Some img) files ->
    (0 < rows img)%nat /\ (0 < cols img)%nat.

(** dataset/<k>/<filename> is there, and [cv2.imread] gives [content] for
    it. *)
Definition has_sample (ds : list (string * node)) (k filename : string)
    (content : option Mat) : Prop :=
  exists files, lookup_node ds k = Some (Folder files) /\ In (filename, content) files.

(** The same upload sent to /api/recognize once at each of the times
    [nows], in that order; a request is served only when the one before it
    returned. *)
Fixpoint recognize_each `{cv : OpenCV} (nows : list datetime)
    (req : recognize_request) : M (list response) :=
  match nows with
  | [] => ret []
  | now :: later =>
      r <- recognize_face now req ;;
      rs <- recognize_each later req ;;
      ret (r :: rs)
  end.

(** The sample folder after [save_sample]. *)
Definition folder_after (ds : list (string * node)) (k filename : string)
    (content : option Mat) : list (string * option Mat) :=
  match lookup_node ds k with
  | Some (Folder files) => put_file files filename content
  | _ => [(filename, content)]
  end.

(** [face] with label [l] is what [train_model] makes of a sample of the
    corpus: an image file that decodes, in the folder of a registered id,
    resized to [FIXED_SIZE] and labelled with the id as an integer. *)
Definition sample_of `{cv : OpenCV} (d : dict) (ds : list (string * node))
    (face : Mat) (l : Z) : Prop :=
  exists k filename img,
    In k (dict_keys d) /\ has_sample ds k filename (Some img) /\
    has_image_ext filename = true /\ py_int k = Some l /\
    face = resize img FIXED_SIZE.

(** A deployment in which dataset/1 is a plain file. *)
Definition blocked_world (distance : float) : @World (toy_cv distance) :=
  @mkWorld (toy_cv distance) Missing (Some [("1", PlainFile)]) NoModel None None.


(* ------------------------------------------------------------------ *)
(** ** Facts about the builtins *)

Lemma is_digit_not_space : forall c, is_digit c = true -> isspace c = false.
Proof.
  intros c H. unfold is_digit in H. unfold isspace.
  apply andb_true_iff in H as [H1 H2].
  apply Nat.leb_le in H1. apply Nat.leb_le in H2.
  apply orb_false_iff. split; apply andb_false_iff.
  - right. apply Nat.leb_gt. lia.
  - right. apply Nat.leb_gt. lia.
Qed.

Lemma is_digit_not_underscore : forall c, is_digit c = true -> Ascii.eqb c "_" = false.
Proof.
  intros c H. destruct (Ascii.eqb_spec c "_") as [->|]; [ discriminate H | reflexivity ].
Qed.

Lemma string_of_uint_digits : forall u, all_digits (NilEmpty.string_of_uint u) = true.
Proof. induction u; simpl; auto. Qed.

Lemma rstrip_digits : forall s, all_digits s = true -> rstrip s = s.
Proof.
  induction s as [|c r IH]; simpl; intros H; [ reflexivity | ].
  apply andb_true_iff in H as [Hc Hr].
  rewrite (IH Hr). destruct r; [ now rewrite (is_digit_not_space c Hc) | reflexivity ].
Qed.

Lemma lstrip_digits : forall s, all_digits s = true -> lstrip s = s.
Proof.
  destruct s as [|c r]; simpl; intros H; [ reflexivity | ].
  apply andb_true_iff in H as [Hc _]. now rewrite (is_digit_not_space c Hc).
Qed.

Lemma int_digits_digits : forall s, all_digits s = true -> int_digits true s = Some s.
Proof.
  induction s as [|c r IH]; simpl; intros H; [ reflexivity | ].
  apply andb_true_iff in H as [Hc Hr]. now rewrite Hc, (IH Hr).
Qed.

Lemma int_literal_uint : forall u,
  u <> Decimal.Nil -> int_literal (NilEmpty.string_of_uint u) = Some (Z.of_uint u).
Proof.
  intros u Hu. unfold int_literal.
  assert (H : int_digits false (NilEmpty.string_of_uint u)
              = Some (NilEmpty.string_of_uint u)).
  { pose proof (string_of_uint_digits u) as Hd.
    destruct (NilEmpty.string_of_uint u) as [|c r] eqn:E.
    - destruct u; simpl in E; congruence.
    - simpl in Hd |- *. apply andb_true_iff in Hd as [Hc Hr].
      now rewrite Hc, (int_digits_digits r Hr). }
  rewrite H, NilEmpty.usu. reflexivity.
Qed.

(** A numeral of digits only is read as such by [int]: neither blanks to
    strip nor a sign. *)
Lemma py_int_uint : forall u,
  u <> Decimal.Nil -> py_int (NilEmpty.string_of_uint u) = Some (Z.of_uint u).
Proof.
  intros u Hu. unfold py_int, strip.
  rewrite (rstrip_digits _ (string_of_uint_digits u)).
  rewrite (lstrip_digits _ (string_of_uint_digits u)).
  rewrite <- (int_literal_uint u Hu).
  destruct u; try congruence; reflexivity.
Qed.

Lemma py_int_neg_uint : forall u,
  u <> Decimal.Nil ->
  py_int (String "-" (NilEmpty.string_of_uint u)) = Some (- Z.of_uint u).
Proof.
  intros u Hu. unfold py_int, strip.
  assert (R : rstrip (String "-" (NilEmpty.string_of_uint u))
              = String "-" (NilEmpty.string_of_uint u)).
  { simpl. rewrite (rstrip_digits _ (string_of_uint_digits u)).
    destruct (NilEmpty.string_of_uint u); reflexivity. }
  rewrite R. simpl. rewrite (int_literal_uint u Hu). reflexivity.
Qed.

Lemma string_of_uint_nonnil : forall u,
  u <> Decimal.Nil -> NilZero.string_of_uint u = NilEmpty.string_of_uint u.
Proof. intros u Hu. destruct u; [ congruence | reflexivity .. ]. Qed.

(** [int(str(n)) == n]. *)
Lemma py_int_str : forall z, py_int (py_str z) = Some z.
Proof.
  intros [|p|p]; unfold py_str; simpl.
  - reflexivity.
  - pose proof (DecimalPos.Unsigned.to_uint_nonnil p) as Hn.
    rewrite (string_of_uint_nonnil _ Hn).
    rewrite (py_int_uint _ Hn). unfold Z.of_uint.
    now rewrite DecimalPos.Unsigned.of_to.
  - pose proof (DecimalPos.Unsigned.to_uint_nonnil p) as Hn.
    rewrite (string_of_uint_nonnil _ Hn).
    rewrite (py_int_neg_uint _ Hn). unfold Z.of_uint.
    now rewrite DecimalPos.Unsigned.of_to.
Qed.



Lemma map_int_In : forall ks ids k,
  map_int ks = Some ids -> In k ks -> exists n, py_int k = Some n /\ In n ids.
Proof.
  induction ks as [|k0 r IH]; simpl; intros ids k H Hin; [ contradiction | ].
  destruct (py_int k0) as [n0|] eqn:E0; [ | discriminate H ].
  destruct (map_int r) as [ids'|] eqn:Er; [ | discriminate H ].
  simpl in H. injection H as <-.
  destruct Hin as [->|Hin].
  - exists n0. split; [ assumption | now left ].
  - destruct (IH ids' k eq_refl Hin) as (n & Hn & Hi).
    exists n. split; [ assumption | now right ].
Qed.

Lemma map_int_snoc : forall ks ids k n,
  map_int ks = Some ids -> py_int k = Some n ->
  map_int (ks ++ [k]) = Some (ids ++ [n])%list.
Proof.
  induction ks as [|k0 r IH]; simpl; intros ids k n H Hk.
  - injection H as <-. now rewrite Hk.
  - destruct (py_int k0) as [n0|]; [ | discriminate H ].
    destruct (map_int r) as [ids'|] eqn:Er; [ | discriminate H ].
    simpl in H. injection H as <-.
    now rewrite (IH ids' k n eq_refl Hk).
Qed.

Lemma map_int_nil : forall ks, map_int ks = Some [] -> ks = [].
Proof.
  destruct ks as [|k r]; simpl; [ reflexivity | ].
  destruct (py_int k); [ | discriminate ].
  destruct (map_int r); discriminate.
Qed.

Lemma fold_max_spec : forall r x,
  In (fold_left Z.max r x) (x :: r) /\ x <= fold_left Z.max r x /\
  Forall (fun i => i <= fold_left Z.max r x) r.
Proof.
  induction r as [|y r IH]; intros x; simpl.
  - split; [ now left | split; [ lia | constructor ] ].
  - destruct (IH (Z.max x y)) as (Hin & Hle & Hall).
    remember (fold_left Z.max r (Z.max x y)) as M eqn:EM. clear EM.
    split; [ | split ].
    + destruct Hin as [Hm|Hm]; [ | now right; right ].
      destruct (Z.max_spec x y) as [[_ E]|[_ E]]; rewrite E in Hm.
      * right. now left.
      * now left.
    + lia.
    + constructor; [ lia | assumption ].
Qed.

Lemma py_max_spec : forall ids m,
  py_max ids = Some m -> In m ids /\ Forall (fun i => i <= m) ids.
Proof.
  intros [|x r] m H; simpl in H; [ discriminate H | ].
  injection H as <-.
  destruct (fold_max_spec r x) as (Hin & Hle & Hall).
  split; [ assumption | constructor; assumption ].
Qed.

Lemma dict_set_fresh : forall d k v,
  ~ In k (dict_keys d) -> dict_set d k v = (d ++ [(k, v)])%list.
Proof.
  induction d as [|[k0 v0] r IH]; simpl; intros k v H; [ reflexivity | ].
  destruct (String.eqb_spec k0 k) as [->|Hne].
  - exfalso. apply H. now left.
  - f_equal. apply IH. intros Hin. apply H. now right.
Qed.

Lemma find_name_In : forall d name k,
  find_name d name = Some k -> In (k, name) d.
Proof.
  induction d as [|[k0 v0] r IH]; simpl; intros name k H; [ discriminate H | ].
  destruct (String.eqb_spec v0 name) as [->|Hne].
  - injection H as ->. now left.
  - right. now apply IH.
Qed.




Lemma numeric_key_not_empty : forall d k,
  numeric_keys d -> In k (dict_keys d) -> k <> "".
Proof.
  intros d k [ids H] Hin ->.
  destruct (map_int_In _ _ _ H Hin) as (n & Hn & _).
  discriminate Hn.
Qed.

(** The id [get_next_label_id] returns on a non-empty registry of numeric
    keys: one more than the largest key, and not a key itself. *)
Lemma get_next_label_id_spec : forall d ids,
  d <> [] -> map_int (dict_keys d) = Some ids ->
  exists m, In m ids /\ Forall (fun i => i <= m) ids /\
            get_next_label_id d = Ret (py_str (m + 1)) /\
            ~ In (py_str (m + 1)) (dict_keys d).
Proof.
  intros d ids Hd H.
  destruct (py_max ids) as [m|] eqn:Em.
  - destruct (py_max_spec _ _ Em) as (Hin & Hall).
    exists m. repeat split; try assumption.
    + unfold get_next_label_id. destruct d; [ congruence | ].
      now rewrite H, Em.
    + intros Hk. destruct (map_int_In _ _ _ H Hk) as (n & Hn & Hi).
      rewrite py_int_str in Hn. injection Hn as <-.
      rewrite Forall_forall in Hall. specialize (Hall _ Hi). lia.
  - destruct ids; [ | discriminate Em ].
    apply map_int_nil in H. destruct d; [ congruence | discriminate H ].
Qed.

Lemma numeric_keys_snoc : forall d n name,
  numeric_keys d -> numeric_keys (d ++ [(py_str n, name)])%list.
Proof.
  intros d n name [ids H]. exists (ids ++ [n])%list.
  unfold dict_keys. rewrite map_app. simpl.
  apply map_int_snoc; [ exact H | apply py_int_str ].
Qed.

Lemma numeric_keys_nil : numeric_keys [].
Proof. now exists []. Qed.

(* ------------------------------------------------------------------ *)
(** ** Facts about timestamps *)

Lemma digit_val_char : forall d, 0 <= d < 10 -> digit_val (digit_char d) = Some d.
Proof.
  intros d H.
  assert (E : d = 0 \/ d = 1 \/ d = 2 \/ d = 3 \/ d = 4 \/ d = 5 \/ d = 6
              \/ d = 7 \/ d = 8 \/ d = 9) by lia.
  repeat (destruct E as [->|E]; [ reflexivity | ]). subst d. reflexivity.
Qed.

Lemma number_acc_char : forall acc d r,
  0 <= d < 10 ->
  number_acc acc (String (digit_char d) r) = number_acc (10 * acc + d) r.
Proof.
  intros acc d r H. cbn [number_acc]. now rewrite (digit_val_char d H).
Qed.

Lemma two_digits : forall n,
  0 <= n < 100 -> 10 * (10 * 0 + n / 10 mod 10) + n / 1 mod 10 = n.
Proof. intros n H. rewrite Z.div_1_r. Z.div_mod_to_equations; lia. Qed.

Lemma four_digits : forall n,
  0 <= n < 10000 ->
  10 * (10 * (10 * (10 * 0 + n / 1000 mod 10) + n / 100 mod 10)
        + n / 10 mod 10) + n / 1 mod 10 = n.
Proof. intros n H. rewrite Z.div_1_r. Z.div_mod_to_equations; lia. Qed.

Lemma strftime_timestamp : forall t,
  strftime "%Y-%m-%d %H:%M:%S" t = timestamp_text t.
Proof.
  intros t. unfold timestamp_text.
  cbn [strftime directive zero_padded String.append Ascii.eqb Bool.eqb].
  rewrite !Z.div_div by lia. rewrite !Z.div_1_r. reflexivity.
Qed.

Lemma read_timestamp_text : forall t,
  wf_datetime t -> read_timestamp (timestamp_text t) = Some (whole_second t).
Proof.
  intros t (Hy & Hmo & Hd & Hh & Hmi & Hs & _).
  unfold read_timestamp, timestamp_text, field, sep.
  cbn [String.length Nat.eqb String.get substring andb Ascii.eqb Bool.eqb].
  rewrite !number_acc_char by (apply Z.mod_pos_bound; lia).
  cbn [number_acc]. unfold whole_second.
  rewrite (four_digits (year t)) by lia.
  rewrite (two_digits (month t)), (two_digits (day t)), (two_digits (hour t)),
    (two_digits (minute t)), (two_digits (second t)) by lia.
  reflexivity.
Qed.

(** Reading a timestamp the service wrote gives back the time it was
    written at, cut to the second. *)
Lemma read_timestamp_strftime : forall t,
  wf_datetime t ->
  read_timestamp (strftime "%Y-%m-%d %H:%M:%S" t) = Some (whole_second t).
Proof. intros t H. rewrite strftime_timestamp. now apply read_timestamp_text. Qed.

Lemma whole_second_mono : forall a b,
  wf_datetime a -> wf_datetime b -> dt_le a b ->
  dt_le (whole_second a) (whole_second b).
Proof.
  intros a b (Ha1 & Ha2 & Ha3 & Ha4 & Ha5 & Ha6 & Ha7)
             (Hb1 & Hb2 & Hb3 & Hb4 & Hb5 & Hb6 & Hb7).
  unfold dt_le, instant, whole_second.
  cbn [year month day hour minute second microsecond]. lia.
Qed.

(* ------------------------------------------------------------------ *)
(** ** What the handlers compute *)

Section Properties.
Context `{cv : OpenCV}.

(** [load_labels] never writes, and returns a dict exactly for the stores
    that stand for a registry. *)
Lemma load_labels_registry : forall (w : World) d,
  load_labels w = (w, Ret (PyDict d)) <-> registry_of (labels_json w) = Some d.
Proof.
  unfold load_labels; run. intros w d.
  destruct (labels_json w) as [ | | |[d'|]]; cbn [registry_of]; split;
    intros H; try discriminate H; inversion H; reflexivity.
Qed.

Lemma load_labels_reads : forall (w : World),
  fst (load_labels w) = w.
Proof.
  unfold load_labels; run. intros w. destruct (labels_json w); reflexivity.
Qed.

Lemma load_labels_stored : forall (w : World) d,
  load_labels (with_labels_json (Holds (PyDict d)) w)
    = (with_labels_json (Holds (PyDict d)) w, Ret (PyDict d)).
Proof. reflexivity. Qed.

Lemma detect_face_pure : forall img (w : World),
  detect_face img w =
    (w, Ret match detectMultiScale (cvtColor_BGR2GRAY img) with
            | [] => None
            | (x, y, wd, h) :: _ =>
                Some (resize (crop (cvtColor_BGR2GRAY img) y (y + h) x (x + wd))
                        FIXED_SIZE)
            end).
Proof.
  intros img w. unfold detect_face.
  destruct (detectMultiScale (cvtColor_BGR2GRAY img)) as [|[[[x y] wd] h] rest];
    reflexivity.
Qed.

(** [recognize_face] once the upload decodes, a face is found and a model is
    on disk: what is left is the threshold and the registry. *)
Lemma recognize_face_run : forall now (w : World) bytes img face m label score,
  imdecode bytes = Some img ->
  detect_face img w = (w, Ret (Some face)) ->
  model_yml w = Saved m ->
  recognizer_predict m face = (label, score) ->
  recognize_face now (mkRecognize (Some bytes)) w =
    if ltb score THRESHOLD then
      match labels_json w with
      | Unopenable => (with_recognizer (Some m) w, Raise OSError)
      | Holds PyOther => (with_recognizer (Some m) w, Raise AttributeError)
      | st =>
          let name :=
            dict_get (match registry_of st with Some d => d | None => [] end)
              (py_str label) "Unknown" in
          (with_attendance_csv
             (Some (ledger w ++ [[name; strftime "%Y-%m-%d %H:%M:%S" now]])%list)
             (with_recognizer (Some m) w),
           Ret (recognized name score))
      end
    else (with_recognizer (Some m) w, Ret (not_recognized score)).
Proof.
  intros now w bytes img face m label score Hdec Hface Hmodel Hpred.
  unfold recognize_face. cbn [recognize_image]. rewrite Hdec.
  unfold bind at 1. rewrite Hface.
  unfold load_model; run. rewrite Hmodel. cbn [negb recognizer with_recognizer].
  rewrite Hpred. destruct (ltb score THRESHOLD); [ | reflexivity ].
  unfold load_labels, mark_attendance; run.
  cbn [labels_json with_recognizer].
  destruct (labels_json w) as [ | | |[d|]]; reflexivity.
Qed.

Lemma recognize_face_accepts : forall now (w : World) bytes img face m label score d,
  imdecode bytes = Some img ->
  detect_face img w = (w, Ret (Some face)) ->
  model_yml w = Saved m ->
  recognizer_predict m face = (label, score) ->
  ltb score THRESHOLD = true ->
  registry_of (labels_json w) = Some d ->
  recognize_face now (mkRecognize (Some bytes)) w =
    (with_attendance_csv
       (Some (ledger w ++ [[dict_get d (py_str label) "Unknown";
                            strftime "%Y-%m-%d %H:%M:%S" now]])%list)
       (with_recognizer (Some m) w),
     Ret (recognized (dict_get d (py_str label) "Unknown") score)).
Proof.
  intros now w bytes img face m label score d Hdec Hface Hmodel Hpred Hlt Hreg.
  rewrite (recognize_face_run now w bytes img face m label score
             Hdec Hface Hmodel Hpred), Hlt.
  destruct (labels_json w) as [ | | |[d'|]]; cbn [registry_of] in Hreg |- *;
    try discriminate Hreg; injection Hreg as <-; reflexivity.
Qed.



Lemma recognize_face_no_model : forall now (w : World) bytes img face,
  imdecode bytes = Some img ->
  detect_face img w = (w, Ret (Some face)) ->
  model_yml w = NoModel ->
  recognize_face now (mkRecognize (Some bytes)) w = (w, Ret model_not_trained).
Proof.
  intros now w bytes img face Hdec Hface Hmodel.
  unfold recognize_face. cbn [recognize_image]. rewrite Hdec.
  unfold bind at 1. rewrite Hface.
  unfold load_model; run. now rewrite Hmodel.
Qed.

Lemma recognize_face_torn_model : forall now (w : World) bytes img face,
  imdecode bytes = Some img ->
  detect_face img w = (w, Ret (Some face)) ->
  model_yml w = Torn ->
  recognize_face now (mkRecognize (Some bytes)) w = (w, Raise Cv2Error).
Proof.
  intros now w bytes img face Hdec Hface Hmodel.
  unfold recognize_face. cbn [recognize_image]. rewrite Hdec.
  unfold bind at 1. rewrite Hface.
  unfold load_model; run. now rewrite Hmodel.
Qed.

Lemma recognized_inj : forall n1 c1 n2 c2,
  recognized n1 c1 = recognized n2 c2 -> n1 = n2 /\ c1 = c2.
Proof. unfold recognized. intros n1 c1 n2 c2 H. inversion H. now split. Qed.

Lemma not_recognized_inj : forall c1 c2,
  not_recognized c1 = not_recognized c2 -> c1 = c2.
Proof. unfold not_recognized. intros c1 c2 H. now inversion H. Qed.


(* ------------------------------------------------------------------ *)
(** ** The decision rule *)


(* ------------------------------------------------------------------ *)
(** ** Recognition without a model *)

(** C4. When a face is found and model_eigen.yml does not exist, the answer
    is "Model not trained yet" and nothing is read or written after the
    check.  That answer is no rejection and no recognition: it has no
    [confidence] and another [message] than any rejection, so a caller can
    tell the two apart. *)
Theorem recognize_face_without_model :
  forall now (w : World) bytes img face,
    imdecode bytes = Some img ->
    detect_face img w = (w, Ret (Some face)) ->
    model_yml w = NoModel ->
    recognize_face now (mkRecognize (Some bytes)) w = (w, Ret model_not_trained) /\
    ~ is_rejected model_not_trained /\
    ~ is_recognized model_not_trained /\
    body_get (fst model_not_trained) "confidence" = None /\
    (forall c, body_get (fst (not_recognized c)) "message"
               <> body_get (fst model_not_trained) "message").
Proof.
  intros now w bytes img face Hdec Hface Hmodel.
  split; [ | split; [ | split; [ | split ] ] ].
  - now apply (recognize_face_no_model now w bytes img face).
  - intros [c H]. discriminate H.
  - intros (n & c & H). discriminate H.
  - reflexivity.
  - intros c H. discriminate H.
Qed.

(* ------------------------------------------------------------------ *)
(** ** Requests without a face *)

(** C8. When the upload decodes and the cascade finds no face, either route
    answers "No face detected" and leaves the whole state as it was: the
    registry, the samples, the model and the ledger. *)
Theorem no_face_changes_nothing :
  forall now write_completes (w : World) name bytes img,
    imdecode bytes = Some img ->
    detectMultiScale (cvtColor_BGR2GRAY img) = [] ->
    register_face now write_completes (mkRegister (Some name) (Some bytes)) w
      = (w, Ret no_face_register) /\
    recognize_face now (mkRecognize (Some bytes)) w
      = (w, Ret no_face_recognize).
Proof.
  intros now write_completes w name bytes img Hdec Hnone.
  unfold register_face, recognize_face.
  cbn [form_name register_image recognize_image]. rewrite Hdec.
  unfold bind. rewrite !detect_face_pure, Hnone. split; reflexivity.
Qed.

(* ------------------------------------------------------------------ *)
(** ** A label the registry does not know *)

Lemma dict_get_absent : forall d k default,
  dict_has d k = false -> dict_get d k default = default.
Proof.
  unfold dict_has, dict_keys.
  induction d as [|[k0 v] r IH]; simpl; intros k default H; [ reflexivity | ].
  rewrite String.eqb_sym. destruct (String.eqb k k0); simpl in H.
  - discriminate H.
  - now apply IH.
Qed.

(** C10. When the predicted distance is below the threshold and the
    predicted label has no entry in the registry, the request still answers
    200 with a recognition of "Unknown", and the ledger gains exactly one
    row, for "Unknown". *)
Theorem recognize_face_stale_label :
  forall now (w : World) bytes img face m label score d,
    imdecode bytes = Some img ->
    detect_face img w = (w, Ret (Some face)) ->
    model_yml w = Saved m ->
    recognizer_predict m face = (label, score) ->
    ltb score THRESHOLD = true ->
    load_labels w = (w, Ret (PyDict d)) ->
    dict_has d (py_str label) = false ->
    exists w',
      recognize_face now (mkRecognize (Some bytes)) w
        = (w', Ret (recognized "Unknown" score)) /\
      snd (recognized "Unknown" score) = 200%nat /\
      ledger w'
        = (ledger w ++ [["Unknown"; strftime "%Y-%m-%d %H:%M:%S" now]])%list.
Proof.
  intros now w bytes img face m label score d
         Hdec Hface Hmodel Hpred Hlt Hload Hnone.
  apply load_labels_registry in Hload.
  rewrite (recognize_face_accepts now w bytes img face m label score d
             Hdec Hface Hmodel Hpred Hlt Hload).
  rewrite (dict_get_absent d (py_str label) "Unknown" Hnone).
  eexists. split; [ reflexivity | split; reflexivity ].
Qed.

(* ------------------------------------------------------------------ *)
(** ** The label registry *)

Lemma resolve_label_existing : forall (w : World) d name k,
  load_labels w = (w, Ret (PyDict d)) -> find_name d name = Some k -> k <> "" ->
  resolve_label name w = (w, Ret k).
Proof.
  intros w d name k Hload Hfind Hk.
  unfold resolve_label. unfold bind at 1. rewrite Hload.
  unfold bind at 1, lift. cbn [py_items]. rewrite Hfind.
  unfold falsy. destruct (String.eqb_spec k ""); [ contradiction | reflexivity ].
Qed.

Lemma allocate_label_fresh : forall (w : World) d name k,
  labels_json w <> Unopenable ->
  get_next_label_id d = Ret k -> ~ In k (dict_keys d) ->
  allocate_label d name w
    = (with_labels_json (Holds (PyDict (d ++ [(k, name)])%list)) w, Ret k).
Proof.
  intros w d name k Hopen Hnext Hfresh.
  unfold allocate_label, save_labels; run. rewrite Hnext.
  rewrite (dict_set_fresh d k name Hfresh).
  destruct (labels_json w); try reflexivity; congruence.
Qed.

(** Resolving a name the registry does not hold yet. *)
Lemma resolve_label_new : forall (w : World) d name,
  load_labels w = (w, Ret (PyDict d)) -> numeric_keys d -> find_name d name = None ->
  exists n,
    resolve_label name w
      = (with_labels_json (Holds (PyDict (d ++ [(py_str n, name)])%list)) w,
         Ret (py_str n)) /\
    (d = [] -> n = 1) /\
    (d <> [] ->
     exists ids m, map_int (dict_keys d) = Some ids /\ In m ids /\
                   Forall (fun i => i <= m) ids /\ n = m + 1).
Proof.
  intros w d name Hload [ids Hids] Hfind.
  assert (Hopen : labels_json w <> Unopenable).
  { apply load_labels_registry in Hload. intros E. rewrite E in Hload.
    discriminate Hload. }
  unfold resolve_label. unfold bind at 1. rewrite Hload.
  unfold bind at 1, lift. cbn [py_items]. rewrite Hfind.
  destruct d as [|kv r].
  - exists 1. split; [ | split; [ reflexivity | congruence ] ].
    now apply allocate_label_fresh.
  - destruct (get_next_label_id_spec (kv :: r) ids) as (m & Hin & Hall & Hnext & Hfresh);
      [ discriminate | assumption | ].
    exists (m + 1). split; [ | split; [ discriminate | ] ].
    + now apply allocate_label_fresh.
    + intros _. now exists ids, m.
Qed.

(** Resolving a name keeps the registry invariant. *)
Lemma resolve_label_numeric_keys : forall (w w1 : World) d name k,
  load_labels w = (w, Ret (PyDict d)) -> numeric_keys d ->
  resolve_label name w = (w1, Ret k) ->
  exists d1, load_labels w1 = (w1, Ret (PyDict d1)) /\ numeric_keys d1.
Proof.
  intros w w1 d name k Hload Hnum Hrun.
  destruct (find_name d name) as [k0|] eqn:Hfind.
  - rewrite (resolve_label_existing w d name k0 Hload Hfind) in Hrun.
    + inversion Hrun; subst. now exists d.
    + apply (numeric_key_not_empty d k0 Hnum).
      apply find_name_In in Hfind. apply (in_map fst) in Hfind. exact Hfind.
  - destruct (resolve_label_new w d name Hload Hnum Hfind) as (n & Hn & _).
    rewrite Hn in Hrun. inversion Hrun; subst.
    exists (d ++ [(py_str n, name)])%list.
    split; [ apply load_labels_stored | now apply numeric_keys_snoc ].
Qed.


(* ------------------------------------------------------------------ *)
(** ** Loading the registry *)

(** C9, as the code has it.  When labels.json stands for a registry (it is
    absent, or does not parse, or holds a JSON object), [load_labels]
    returns that registry and changes nothing: an absent file and a file
    that does not parse give the empty registry.  With an absent or
    unparsable file both readers go on as with an empty registry:
    registration gives the name id 1, recognition calls the accepted face
    "Unknown". *)
Theorem load_labels_on_registry_store :
  forall (w : World) d,
    registry_of (labels_json w) = Some d ->
    load_labels w = (w, Ret (PyDict d)) /\
    (labels_json w = Missing \/ labels_json w = Garbled ->
       d = [] /\
       (forall name,
          resolve_label name w
            = (with_labels_json (Holds (PyDict [("1", name)])) w, Ret "1")) /\
       (forall now bytes img face m label score,
          imdecode bytes = Some img ->
          detect_face img w = (w, Ret (Some face)) ->
          model_yml w = Saved m ->
          recognizer_predict m face = (label, score) ->
          ltb score THRESHOLD = true ->
          snd (recognize_face now (mkRecognize (Some bytes)) w)
            = Ret (recognized "Unknown" score))).
Proof.
  intros w d Hreg.
  assert (Hload : load_labels w = (w, Ret (PyDict d)))
    by now apply load_labels_registry.
  split; [ exact Hload | ].
  intros Hempty.
  assert (E : d = []).
  { destruct Hempty as [E | E]; rewrite E in Hreg; now injection Hreg. }
  subst d. split; [ reflexivity | split ].
  - intros name.
    destruct (resolve_label_new w [] name Hload numeric_keys_nil eq_refl)
      as (n & Hn & H1 & _).
    rewrite (H1 eq_refl) in Hn. exact Hn.
  - intros now bytes img face m label score Hdec Hface Hmodel Hpred Hlt.
    now rewrite (recognize_face_accepts now w bytes img face m label score []
                   Hdec Hface Hmodel Hpred Hlt Hreg).
Qed.

(* ------------------------------------------------------------------ *)
(** ** Retraining on an empty corpus *)

Lemma scan_folder_nothing : forall label_id_str files acc,
  Forall (fun f => has_image_ext (fst f) = false \/ snd f = None) files ->
  scan_folder label_id_str files acc = Ret acc.
Proof.
  intros k files acc H. induction H as [|[filename content] rest Hf _ IH];
    simpl; [ reflexivity | ].
  destruct (has_image_ext filename) eqn:Eext; [ | exact IH ].
  destruct Hf as [Hf|Hf]; simpl in Hf; [ congruence | ].
  now rewrite Hf.
Qed.

Lemma scan_dataset_nothing : forall d ds acc,
  corpus_empty d ds -> scan_dataset d ds acc = Ret acc.
Proof.
  intros d ds acc H. induction H as [|[k v] rest Hk _ IH]; simpl; [ reflexivity | ].
  simpl in Hk. destruct (lookup_node ds k) as [[|files]|]; try exact IH.
  now rewrite (scan_folder_nothing k files acc Hk).
Qed.

Lemma scan_folder_grows : forall label_id_str files acc acc',
  scan_folder label_id_str files acc = Ret acc' ->
  (List.length (fst acc) <= List.length (fst acc'))%nat /\
  (List.length (fst acc') = List.length (fst acc) ->
   Forall (fun f => has_image_ext (fst f) = false \/ snd f = None) files).
Proof.
  intros k files. induction files as [|[filename content] rest IH];
    simpl; intros acc acc' H.
  - inversion H; subst. split; [ lia | constructor ].
  - destruct (has_image_ext filename) eqn:Eext.
    + destruct content as [img|].
      * destruct (py_int k) as [l|]; [ | discriminate H ].
        destruct (IH _ _ H) as [Hle _]. simpl in Hle.
        rewrite length_app in Hle. simpl in Hle. split; lia.
      * destruct (IH _ _ H) as [Hle Hsame].
        split; [ exact Hle | ].
        intros E. constructor; [ now right | now apply Hsame ].
    + destruct (IH _ _ H) as [Hle Hsame].
      split; [ exact Hle | ].
      intros E. constructor; [ now left | now apply Hsame ].
Qed.

Lemma scan_dataset_grows : forall d ds acc acc',
  scan_dataset d ds acc = Ret acc' ->
  (List.length (fst acc) <= List.length (fst acc'))%nat /\
  (List.length (fst acc') = List.length (fst acc) -> corpus_empty d ds).
Proof.
  intros d ds. induction d as [|[k v] rest IH]; simpl; intros acc acc' H.
  - inversion H; subst. split; [ lia | constructor ].
  - destruct (lookup_node ds k) as [[|files]|] eqn:Ek.
    + destruct (IH _ _ H) as [Hle Hsame]. split; [ exact Hle | ].
      intros E. constructor; [ simpl; now rewrite Ek | now apply Hsame ].
    + destruct (scan_folder k files acc) as [acc1|] eqn:Ef; [ | discriminate H ].
      destruct (scan_folder_grows _ _ _ _ Ef) as [Hle1 Hsame1].
      destruct (IH _ _ H) as [Hle Hsame]. split; [ lia | ].
      intros E. constructor.
      * simpl. rewrite Ek. apply Hsame1. lia.
      * apply Hsame. lia.
    + destruct (IH _ _ H) as [Hle Hsame]. split; [ exact Hle | ].
      intros E. constructor; [ simpl; now rewrite Ek | now apply Hsame ].
Qed.

(** [corpus_empty] is exactly the case in which the scan of [train_model]
    ends with no face. *)
Lemma training_set_empty_iff : forall d ds,
  (exists acc, scan_dataset d ds ([], []) = Ret acc /\ fst acc = []) <->
  corpus_empty d ds.
Proof.
  intros d ds. split.
  - intros (acc & H & E). apply (scan_dataset_grows _ _ _ _ H).
    now rewrite E.
  - intros H. exists ([], []). split; [ now apply scan_dataset_nothing | reflexivity ].
Qed.


(* ------------------------------------------------------------------ *)
(** ** Replacing the model *)

(** [train_model] on a corpus that yields at least one face. *)
Lemma train_model_run : forall write_completes (w : World) d faces labels,
  load_labels w = (w, Ret (PyDict d)) ->
  scan_dataset d (entries w) ([], []) = Ret (faces, labels) ->
  faces <> [] ->
  train_model write_completes w =
    let m := recognizer_train faces labels in
    let w1 := with_recognizer (Some m) (with_dataset (Some (entries w)) w) in
    if write_completes then (with_model_yml (Saved m) w1, Ret true)
    else (with_model_yml Torn w1, Raise Cv2Error).
Proof.
  intros write_completes w d faces labels Hload Hscan Hfaces.
  unfold train_model. unfold bind at 1. rewrite Hload. run.
  cbn [entries dataset with_dataset py_items]. rewrite Hscan. cbn [fst snd].
  destruct faces as [|f faces']; [ congruence | ].
  cbn [List.length Nat.eqb]. unfold recognizer_save; run.
  cbn [recognizer with_recognizer].
  destruct write_completes; reflexivity.
Qed.

(** C5, as the code has it.  A retrain that succeeds replaces the model
    file wholesale: when [train_model] returns [True], model_eigen.yml holds
    the model trained on the faces just collected, whatever it held before,
    and the next [load_model] loads that model.  The file is written in
    place, with no copy kept aside: a write that fails part-way leaves it
    unfinished, whatever it held before. *)
Theorem train_model_replaces_in_place :
  forall (w : World) d faces labels,
    load_labels w = (w, Ret (PyDict d)) ->
    scan_dataset d (entries w) ([], []) = Ret (faces, labels) ->
    faces <> [] ->
    (exists w',
       train_model true w = (w', Ret true) /\
       model_yml w' = Saved (recognizer_train faces labels) /\
       fst (load_model w')
         = with_recognizer (Some (recognizer_train faces labels)) w' /\
       snd (load_model w') = Ret true) /\
    (exists w',
       train_model false w = (w', Raise Cv2Error) /\
       model_yml w' = Torn /\
       load_model w' = (w', Raise Cv2Error)).
Proof.
  intros w d faces labels Hload Hscan Hfaces.
  pose proof (train_model_run true w d faces labels Hload Hscan Hfaces) as Hok.
  pose proof (train_model_run false w d faces labels Hload Hscan Hfaces) as Hko.
  cbv zeta in Hok, Hko. cbn [negb] in Hok, Hko.
  split; eexists; (split; [ eassumption | ]); repeat split.
Qed.

(* ------------------------------------------------------------------ *)
(** ** Locating a face *)

Section Locator.
Hypothesis cv_contract : OpenCV_contract.


End Locator.

(* ------------------------------------------------------------------ *)
(** ** The attendance ledger *)

(** Every run of [recognize_face] either answers with a recognition and adds
    one row for the name it answers with, or answers anything else (or
    raises) and leaves the ledger as it was. *)
Lemma recognize_face_ledger : forall now req (w : World),
  (exists name c,
     snd (recognize_face now req w) = Ret (recognized name c) /\
     ledger (fst (recognize_face now req w))
       = (ledger w ++ [[name; strftime "%Y-%m-%d %H:%M:%S" now]])%list) \/
  ((forall name c, snd (recognize_face now req w) <> Ret (recognized name c)) /\
   ledger (fst (recognize_face now req w)) = ledger w).
Proof.
  intros now [[bytes|]] w.
  2: { right. split; [ intros name c H; discriminate H | reflexivity ]. }
  destruct (imdecode bytes) as [img|] eqn:Hdec.
  2: { right. unfold recognize_face. cbn [recognize_image]. rewrite Hdec.
       split; [ intros name c H; discriminate H | reflexivity ]. }
  pose proof (detect_face_pure img w) as Hface.
  destruct (detectMultiScale (cvtColor_BGR2GRAY img)) as [|[[[x y] wd] h] rest].
  { right. unfold recognize_face. cbn [recognize_image]. rewrite Hdec.
    unfold bind. rewrite Hface.
    split; [ intros name c H; discriminate H | reflexivity ]. }
  destruct (model_yml w) as [ | |m] eqn:Hmodel.
  { right. rewrite (recognize_face_no_model now w bytes img _ Hdec Hface Hmodel).
    split; [ intros name c H; discriminate H | reflexivity ]. }
  { right. rewrite (recognize_face_torn_model now w bytes img _ Hdec Hface Hmodel).
    split; [ intros name c H; discriminate H | reflexivity ]. }
  destruct (recognizer_predict m
              (resize (crop (cvtColor_BGR2GRAY img) y (y + h) x (x + wd))
                 FIXED_SIZE)) as [label score] eqn:Hpred.
  rewrite (recognize_face_run now w bytes img _ m label score
             Hdec Hface Hmodel Hpred).
  destruct (ltb score THRESHOLD).
  - destruct (labels_json w) as [ | | |[d|]].
    all: try (left; eexists _, _; split; reflexivity).
    all: right; split; [ intros name c H; discriminate H | reflexivity ].
  - right. split; [ | reflexivity ].
    intros name c H. cbn [snd] in H. inversion H.
Qed.

(** C7, as the code has it.  A recognition adds exactly one row to the
    ledger, made of the name answered and the time read from the clock
    during the request, written as YYYY-MM-DD HH:MM:SS; read back, that
    time is no earlier than the start of the request cut to the second.
    Any other answer, and any exception, leaves the ledger as it was. *)
Theorem recognized_appends_one_row :
  forall start now req (w : World),
    wf_datetime start -> wf_datetime now -> dt_le start now ->
    (forall w' name c,
       recognize_face now req w = (w', Ret (recognized name c)) ->
       exists stamp t,
         ledger w' = (ledger w ++ [[name; stamp]])%list /\
         stamp = strftime "%Y-%m-%d %H:%M:%S" now /\
         read_timestamp stamp = Some t /\
         dt_le (whole_second start) t) /\
    (forall w' out,
       recognize_face now req w = (w', out) ->
       (forall name c, out <> Ret (recognized name c)) ->
       ledger w' = ledger w).
Proof.
  intros start now req w Hstart Hnow Hle.
  destruct (recognize_face_ledger now req w)
    as [(name0 & c0 & Hout & Hrows) | (Hother & Hrows)].
  - split.
    + intros w' name c Hrun. rewrite Hrun in Hout, Hrows. cbn [fst snd] in *.
      assert (Heq : recognized name c = recognized name0 c0) by congruence.
      apply recognized_inj in Heq as [-> ->].
      exists (strftime "%Y-%m-%d %H:%M:%S" now), (whole_second now).
      split; [ exact Hrows | split; [ reflexivity | split ] ].
      * now apply read_timestamp_strftime.
      * now apply whole_second_mono.
    + intros w' out Hrun Hno. rewrite Hrun in Hout. cbn [snd] in Hout.
      exfalso. exact (Hno name0 c0 Hout).
  - split.
    + intros w' name c Hrun. rewrite Hrun in Hother. cbn [snd] in Hother.
      exfalso. exact (Hother name c eq_refl).
    + intros w' out Hrun _. rewrite Hrun in Hrows. exact Hrows.
Qed.

End Properties.

(* ------------------------------------------------------------------ *)
(** ** The theorems at concrete inputs *)

Lemma toy_contract : forall distance, @OpenCV_contract (toy_cv distance).
Proof.
  intros distance. constructor.
  - intros m w h _ _. repeat split.
  - intros m. repeat split.
  - intros g x y w h. cbn [detectMultiScale toy_cv]. unfold toy_detect.
    destruct ((2 <=? rows g)%nat && (2 <=? cols g)%nat)%bool eqn:E;
      [ | intros [] ].
    apply andb_true_iff in E as [Hr Hc].
    apply Nat.leb_le in Hr. apply Nat.leb_le in Hc.
    intros [H|[]]. inversion H; subst. lia.
Qed.

Lemma wf_request_start : wf_datetime request_start.
Proof. unfold wf_datetime, request_start; cbn; lia. Defined.

Lemma wf_clock_reading : wf_datetime clock_reading.
Proof. unfold wf_datetime, clock_reading; cbn; lia. Defined.

Lemma start_before_reading : dt_le request_start clock_reading.
Proof. unfold dt_le, instant, request_start, clock_reading; cbn; lia. Defined.




(** C4 at a fresh deployment. *)
Lemma recognize_face_without_model_witness :
  recognize_face clock_reading (mkRecognize (Some face_upload))
    (fresh_world 100)
  = (fresh_world 100, Ret model_not_trained).
Proof.
  apply (@recognize_face_without_model (toy_cv 100) clock_reading
           (fresh_world 100) face_upload _ _ eq_refl eq_refl eq_refl).
Defined.

(** C5 (as the code has it) at a retrain of alice's sample. *)
Lemma train_model_replaces_in_place_witness :
  model_yml (fst (train_model true (stale_world 100))) = @Saved (toy_cv 100) [1] /\
  model_yml (fst (train_model false (stale_world 100))) = Torn.
Proof.
  destruct (@train_model_replaces_in_place (toy_cv 100) (stale_world 100)
              [("1", "alice")] _ [1] eq_refl eq_refl)
    as [(w1 & Hrun1 & Hfile1 & _) (w2 & Hrun2 & Hfile2 & _)].
  - discriminate.
  - rewrite Hrun1, Hrun2. split; assumption.
Defined.


(** C7 at a recognition of alice. *)
Lemma recognized_appends_one_row_witness :
  exists w' stamp t,
    recognize_face clock_reading (mkRecognize (Some face_upload))
      (alice_world 100)
    = (w', Ret (recognized "alice" 100)) /\
    ledger w' = (ledger (alice_world 100) ++ [["alice"; stamp]])%list /\
    read_timestamp stamp = Some t /\
    dt_le (whole_second request_start) t.
Proof.
  destruct (@recognized_appends_one_row (toy_cv 100) request_start
              clock_reading (mkRecognize (Some face_upload))
              (alice_world 100) wf_request_start wf_clock_reading
              start_before_reading) as [Hrec _].
  pose (w' := fst (recognize_face clock_reading
                     (mkRecognize (Some face_upload)) (alice_world 100))).
  assert (Hrun : recognize_face clock_reading
                   (mkRecognize (Some face_upload)) (alice_world 100)
                 = (w', Ret (recognized "alice" 100))) by reflexivity.
  destruct (Hrec w' "alice" 100%float Hrun)
    as (stamp & t & Hrows & _ & Hread & Hle).
  exists w', stamp, t.
  split; [ exact Hrun | split; [ exact Hrows | split; assumption ] ].
Defined.

(** C8 at the one-byte upload. *)
Lemma no_face_changes_nothing_witness :
  register_face clock_reading true
    (mkRegister (Some "bob") (Some faceless_upload)) (alice_world 100)
  = (alice_world 100, Ret no_face_register) /\
  recognize_face clock_reading (mkRecognize (Some faceless_upload))
    (alice_world 100)
  = (alice_world 100, Ret no_face_recognize).
Proof.
  apply (@no_face_changes_nothing (toy_cv 100) clock_reading true
           (alice_world 100) "bob" faceless_upload _ eq_refl eq_refl).
Defined.

(** C9 (as the code has it) at a fresh deployment. *)
Lemma load_labels_on_registry_store_witness :
  load_labels (fresh_world 100) = (fresh_world 100, Ret (PyDict [])) /\
  resolve_label "bob" (fresh_world 100)
  = (with_labels_json (Holds (PyDict [("1", "bob")])) (fresh_world 100),
     Ret "1").
Proof.
  destruct (@load_labels_on_registry_store (toy_cv 100) (fresh_world 100) [] eq_refl)
    as [Hload Hempty].
  split; [ exact Hload | ].
  destruct (Hempty (or_introl eq_refl)) as (_ & Hreg & _).
  exact (Hreg "bob").
Defined.

(** C10 at a model that predicts label 7, which the registry lacks. *)
Lemma recognize_face_stale_label_witness :
  exists w',
    recognize_face clock_reading (mkRecognize (Some face_upload))
      (stale_world 100)
    = (w', Ret (recognized "Unknown" 100)) /\
    ledger w'
    = (ledger (stale_world 100) ++ [["Unknown"; "2024-05-17 12:00:00"]])%list.
Proof.
  destruct (@recognize_face_stale_label (toy_cv 100) clock_reading
              (stale_world 100) face_upload _ _ [7] 7 100%float
              [("1", "alice")] eq_refl eq_refl eq_refl eq_refl eq_refl
              eq_refl eq_refl) as (w' & Hrun & _ & Hrows).
  exists w'. split; [ exact Hrun | exact Hrows ].
Defined.

(* ------------------------------------------------------------------ *)
(** ** Where the specification and the code part *)

(** C5 as stated fails.  The service holds a model trained on alice's
    sample.  A retrain whose write fails part-way raises and leaves
    model_eigen.yml unfinished: the previous model is gone, and the next
    recognition raises instead of using it. *)
Lemma interrupted_save_loses_model :
  model_yml (alice_world 100) = @Saved (toy_cv 100) [1] /\
  snd (train_model false (alice_world 100)) = Raise Cv2Error /\
  model_yml (fst (train_model false (alice_world 100))) = Torn /\
  snd (recognize_face clock_reading (mkRecognize (Some face_upload))
         (fst (train_model false (alice_world 100))))
  = Raise Cv2Error.
Proof. repeat split. Qed.

(** C7 as stated fails.  The request starts at 12:00:00.5 and the clock is
    read at 12:00:00.7; the row written says 12:00:00, which is before the
    start of the request. *)
Lemma ledger_timestamp_precedes_request_start :
  wf_datetime request_start /\ wf_datetime clock_reading /\
  dt_le request_start clock_reading /\
  exists w' t,
    recognize_face clock_reading (mkRecognize (Some face_upload))
      (alice_world 100)
    = (w', Ret (recognized "alice" 100)) /\
    ledger w'
    = (ledger (alice_world 100) ++ [["alice"; "2024-05-17 12:00:00"]])%list /\
    read_timestamp "2024-05-17 12:00:00" = Some t /\
    dt_lt t request_start.
Proof.
  split; [ exact wf_request_start | ].
  split; [ exact wf_clock_reading | ].
  split; [ exact start_before_reading | ].
  exists (fst (recognize_face clock_reading (mkRecognize (Some face_upload))
                 (alice_world 100))), (mkDatetime 2024 5 17 12 0 0 0).
  split; [ reflexivity | ].
  split; [ reflexivity | ]. split; [ reflexivity | ].
  unfold dt_lt, instant, request_start; cbn; lia.
Qed.

(** C9 as stated fails.  With a labels.json that is there but cannot be
    opened, [load_labels] raises, and so do a registration and a
    recognition that reach it.  With a labels.json that holds a JSON list,
    [load_labels] returns the list instead of an empty registry, and both
    readers raise on it. *)
Lemma registry_store_read_raises :
  (load_labels (locked_world 100) = (locked_world 100, Raise OSError) /\
   snd (register_face clock_reading true
          (mkRegister (Some "bob") (Some face_upload)) (locked_world 100))
   = Raise OSError /\
   snd (recognize_face clock_reading (mkRecognize (Some face_upload))
          (locked_world 100))
   = Raise OSError) /\
  (load_labels (list_world 100) = (list_world 100, Ret PyOther) /\
   snd (register_face clock_reading true
          (mkRegister (Some "bob") (Some face_upload)) (list_world 100))
   = Raise AttributeError /\
   snd (recognize_face clock_reading (mkRecognize (Some face_upload))
          (list_world 100))
   = Raise AttributeError).
Proof. repeat split. Qed.

(* ------------------------------------------------------------------ *)
(** * Further properties of the service *)

(** ** Strings: suffixes and file names *)

Lemma string_length_app : forall a b,
  String.length (a ++ b) = (String.length a + String.length b)%nat.
Proof. induction a as [|c a IH]; intros b; cbn; [ reflexivity | now rewrite IH ]. Qed.

Lemma substring_whole : forall s, substring 0 (String.length s) s = s.
Proof. induction s as [|c s IH]; cbn; [ reflexivity | now rewrite IH ]. Qed.

Lemma substring_skip : forall p s k,
  substring (String.length p) k (p ++ s) = substring 0 k s.
Proof. induction p as [|c p IH]; intros s k; cbn; [ reflexivity | apply IH ]. Qed.

Lemma substring_split : forall s n k,
  (n + k = String.length s)%nat -> s = substring 0 n s ++ substring n k s.
Proof.
  induction s as [|c s IH]; intros n k H; cbn in H.
  - destruct n, k; try discriminate H; reflexivity.
  - destruct n as [|n]; cbn.
    + destruct k as [|k]; [ discriminate H | ].
      injection H as H. subst k. now rewrite substring_whole.
    + f_equal. apply IH. now injection H.
Qed.

(** [s.endswith(suffix)] holds exactly of the strings that end in
    [suffix]. *)
Lemma endswith_spec : forall s suffix,
  endswith s suffix = true <-> exists p, s = p ++ suffix.
Proof.
  intros s suffix. unfold endswith. split.
  - intros H. apply andb_true_iff in H as [Hle Heq].
    apply Nat.leb_le in Hle. apply String.eqb_eq in Heq.
    exists (substring 0 (String.length s - String.length suffix) s).
    rewrite (substring_split s (String.length s - String.length suffix)
               (String.length suffix)) at 1 by lia.
    now rewrite Heq.
  - intros [p ->]. rewrite string_length_app. apply andb_true_iff. split.
    + apply Nat.leb_le. lia.
    + replace (String.length p + String.length suffix - String.length suffix)%nat
        with (String.length p) by lia.
      rewrite substring_skip, substring_whole. apply String.eqb_refl.
Qed.

Lemma lower_app : forall a b, lower (a ++ b) = lower a ++ lower b.
Proof. induction a as [|c a IH]; intros b; cbn; [ reflexivity | now rewrite IH ]. Qed.

Lemma has_image_ext_iff : forall filename,
  has_image_ext filename = true <->
  exists p, lower filename = p ++ ".png" \/ lower filename = p ++ ".jpg"
            \/ lower filename = p ++ ".jpeg".
Proof.
  intros filename. unfold has_image_ext. rewrite !orb_true_iff, !endswith_spec.
  split.
  - intros [[[p H]|[p H]]|[p H]]; exists p; auto.
  - intros [p [H|[H|H]]]; [ left; left | left; right | right ]; now exists p.
Qed.

Lemma sample_filename_ext : forall now, has_image_ext (sample_filename now) = true.
Proof.
  intros now. apply has_image_ext_iff. unfold sample_filename.
  exists (lower (strftime "%Y%m%d_%H%M%S%f" now)). right. left.
  now rewrite lower_app.
Qed.

(** X11. [train_model] reads a file exactly when its name, in lower case,
    ends in .png, .jpg or .jpeg, whatever stands before the suffix (the
    suffix alone is such a name); in particular it reads every sample
    [register_face] writes, whatever the time of the registration. *)
Theorem has_image_ext_spec :
  (forall filename,
     has_image_ext filename = true <->
     exists p, lower filename = p ++ ".png" \/ lower filename = p ++ ".jpg"
               \/ lower filename = p ++ ".jpeg") /\
  (forall stem, has_image_ext (stem ++ ".JPG") = true /\
                has_image_ext (stem ++ ".jpg.bak") = false) /\
  (forall now, has_image_ext (sample_filename now) = true).
Proof.
  split; [ exact has_image_ext_iff | split; [ | exact sample_filename_ext ] ].
  intros stem. split.
  - apply has_image_ext_iff. exists (lower stem). right. left.
    now rewrite lower_app.
  - unfold has_image_ext. rewrite lower_app.
    change (lower ".jpg.bak") with ".jpg.bak".
    assert (H : forall p suffix,
              (String.length suffix <= 8)%nat ->
              substring (String.length (p ++ ".jpg.bak") - String.length suffix)
                (String.length suffix) (p ++ ".jpg.bak")
              = substring (8 - String.length suffix) (String.length suffix)
                  ".jpg.bak").
    { intros p suffix Hle. rewrite string_length_app.
      replace (String.length p + String.length ".jpg.bak" - String.length suffix)%nat
        with (String.length p + (8 - String.length suffix))%nat
        by (cbn [String.length]; lia).
      clear Hle. induction p as [|c p IH]; cbn [String.length Nat.add append];
        [ reflexivity | ].
      cbn [substring]. exact IH. }
    unfold endswith.
    rewrite (H (lower stem) ".png"), (H (lower stem) ".jpg"), (H (lower stem) ".jpeg")
      by (cbn; lia).
    cbn. now rewrite !andb_false_r.
Qed.

Section Extras.
Context `{cv : OpenCV}.

(* ------------------------------------------------------------------ *)
(** ** What each operation leaves alone *)

Lemma preserves_ret : forall {A X} (f : World -> X) (a : A), preserves f (ret a).
Proof. intros A X f a w. reflexivity. Qed.

Lemma preserves_raise : forall {A X} (f : World -> X) e,
  preserves f (raise (A := A) e).
Proof. intros A X f e w. reflexivity. Qed.

Lemma preserves_lift : forall {A X} (f : World -> X) (o : outcome A),
  preserves f (lift o).
Proof. intros A X f o w. reflexivity. Qed.

Lemma preserves_gets : forall {A X} (f : World -> X) (g : World -> A),
  preserves f (gets g).
Proof. intros A X f g w. reflexivity. Qed.

Lemma preserves_modify : forall {X} (f : World -> X) (g : World -> World),
  (forall w, f (g w) = f w) -> preserves f (modify g).
Proof. intros X f g H w. apply H. Qed.

Lemma preserves_bind : forall {A B X} (f : World -> X) (m : M A) (k : A -> M B),
  preserves f m -> (forall a, preserves f (k a)) -> preserves f (bind m k).
Proof.
  intros A B X f m k Hm Hk w. unfold bind.
  specialize (Hm w). destruct (m w) as [w' [a|e]]; cbn [fst] in *.
  - now rewrite (Hk a w').
  - exact Hm.
Qed.

(** When what follows leaves [f] alone, [f] after the whole is [f] after
    the first step. *)
Lemma bind_observes : forall {A B X} (f : World -> X) (m : M A) (k : A -> M B) w,
  (forall a, preserves f (k a)) -> f (fst (bind m k w)) = f (fst (m w)).
Proof.
  intros A B X f m k w Hk. unfold bind.
  destruct (m w) as [w' [a|e]]; cbn [fst]; [ apply Hk | reflexivity ].
Qed.

Lemma load_labels_frame : forall {X} (f : World -> X), preserves f load_labels.
Proof. intros X f w. now rewrite load_labels_reads. Qed.

Lemma detect_face_frame : forall {X} (f : World -> X) img,
  preserves f (detect_face img).
Proof. intros X f img w. now rewrite detect_face_pure. Qed.

Lemma save_labels_frame : forall {X} (f : World -> X) d,
  (forall v w, f (with_labels_json v w) = f w) -> preserves f (save_labels d).
Proof.
  intros X f d H. unfold save_labels.
  apply preserves_bind; [ apply preserves_gets | intros st ].
  destruct st; try apply preserves_raise; apply preserves_modify; intros w; apply H.
Qed.

Lemma resolve_label_frame : forall {X} (f : World -> X) name,
  (forall v w, f (with_labels_json v w) = f w) ->
  preserves f (resolve_label name).
Proof.
  intros X f name H. unfold resolve_label, allocate_label.
  apply preserves_bind; [ apply load_labels_frame | intros v ].
  apply preserves_bind; [ apply preserves_lift | intros items ].
  assert (Halloc : preserves f
            (label_id_str <- lift (get_next_label_id items);;
             save_labels (dict_set items label_id_str name);; ret label_id_str)).
  { apply preserves_bind; [ apply preserves_lift | intros k ].
    apply preserves_bind; [ now apply save_labels_frame | intros _ ].
    apply preserves_ret. }
  destruct (find_name items name) as [k|]; [ | exact Halloc ].
  destruct (falsy (Some k)); [ exact Halloc | apply preserves_ret ].
Qed.

Lemma save_sample_frame : forall {X} (f : World -> X) k filename face,
  (forall v w, f (with_dataset v w) = f w) ->
  preserves f (save_sample k filename face).
Proof.
  intros X f k filename face H. unfold save_sample.
  apply preserves_modify. intros w.
  destruct (lookup_node (entries w) k) as [[|files]|]; try apply H; reflexivity.
Qed.

Lemma recognizer_save_frame : forall {X} (f : World -> X) write_completes,
  (forall v w, f (with_model_yml v w) = f w) ->
  preserves f (recognizer_save write_completes).
Proof.
  intros X f wc H. unfold recognizer_save.
  apply preserves_bind; [ apply preserves_gets | intros r ].
  destruct r as [m|]; [ | apply preserves_raise ].
  destruct wc.
  - apply preserves_modify. intros w. apply H.
  - apply preserves_bind; [ | intros _; apply preserves_raise ].
    apply preserves_modify. intros w. apply H.
Qed.

Lemma train_model_frame : forall {X} (f : World -> X) write_completes,
  (forall w, f (with_dataset (Some (entries w)) w) = f w) ->
  (forall v w, f (with_recognizer v w) = f w) ->
  (forall v w, f (with_model_yml v w) = f w) ->
  preserves f (train_model write_completes).
Proof.
  intros X f wc Hd Hr Hm. unfold train_model.
  apply preserves_bind; [ apply load_labels_frame | intros v ].
  apply preserves_bind; [ apply preserves_modify; exact Hd | intros _ ].
  apply preserves_bind; [ apply preserves_gets | intros ds ].
  apply preserves_bind; [ apply preserves_lift | intros items ].
  apply preserves_bind; [ apply preserves_lift | intros acc ].
  destruct (List.length (fst acc) =? 0)%nat; [ apply preserves_ret | ].
  apply preserves_bind; [ apply preserves_modify; intros w; apply Hr | intros _ ].
  apply preserves_bind; [ now apply recognizer_save_frame | intros _ ].
  apply preserves_ret.
Qed.

Lemma load_model_frame : forall {X} (f : World -> X),
  (forall v w, f (with_recognizer v w) = f w) -> preserves f load_model.
Proof.
  intros X f H. unfold load_model.
  apply preserves_bind; [ apply preserves_gets | intros file ].
  destruct file; try apply preserves_ret; try apply preserves_raise.
  apply preserves_bind; [ | intros _; apply preserves_ret ].
  apply preserves_modify. intros w. apply H.
Qed.

Lemma mark_attendance_frame : forall {X} (f : World -> X) now name,
  (forall v w, f (with_attendance_csv v w) = f w) ->
  preserves f (mark_attendance now name).
Proof.
  intros X f now name H. unfold mark_attendance.
  apply preserves_modify. intros w. apply H.
Qed.

(** X4. A registration never writes the attendance ledger, whatever the
    request and however it ends. *)
Theorem register_face_keeps_ledger :
  forall now write_completes req (w : World),
    attendance_csv (fst (register_face now write_completes req w))
      = attendance_csv w.
Proof.
  intros now wc req. change (preserves attendance_csv (register_face now wc req)).
  unfold register_face.
  destruct (form_name req) as [name|]; [ | apply preserves_ret ].
  destruct (register_image req) as [bytes|]; [ | apply preserves_ret ].
  destruct (imdecode bytes) as [img|]; [ | apply preserves_ret ].
  apply preserves_bind; [ apply detect_face_frame | intros [face|] ];
    [ | apply preserves_ret ].
  apply preserves_bind; [ now apply resolve_label_frame | intros k ].
  apply preserves_bind; [ now apply save_sample_frame | intros _ ].
  apply preserves_bind; [ now apply train_model_frame | intros trained ].
  destruct (negb trained); apply preserves_ret.
Qed.

Lemma recognize_face_frame : forall {X} (f : World -> X) now req,
  (forall v w, f (with_recognizer v w) = f w) ->
  (forall v w, f (with_attendance_csv v w) = f w) ->
  preserves f (recognize_face now req).
Proof.
  intros X f now req Hr Ha. unfold recognize_face.
  destruct (recognize_image req) as [bytes|]; [ | apply preserves_ret ].
  destruct (imdecode bytes) as [img|]; [ | apply preserves_ret ].
  apply preserves_bind; [ apply detect_face_frame | intros [face|] ];
    [ | apply preserves_ret ].
  apply preserves_bind; [ now apply load_model_frame | intros loaded ].
  destruct (negb loaded); [ apply preserves_ret | ].
  apply preserves_bind; [ apply preserves_gets | intros r ].
  destruct r as [m|]; [ | apply preserves_raise ].
  destruct (recognizer_predict m face) as [label confidence].
  destruct (ltb confidence THRESHOLD); [ | apply preserves_ret ].
  apply preserves_bind; [ apply load_labels_frame | intros v ].
  apply preserves_bind; [ apply preserves_lift | intros name ].
  apply preserves_bind; [ now apply mark_attendance_frame | intros _ ].
  apply preserves_ret.
Qed.

(** X5. A recognition never writes the registry, the samples or the model
    file, whatever the request and however it ends; and it never removes or
    rewrites a row of the ledger: the rows after are the rows before,
    followed by at most one more. *)
Theorem recognize_face_reads_only :
  forall now req (w : World),
    labels_json (fst (recognize_face now req w)) = labels_json w /\
    dataset (fst (recognize_face now req w)) = dataset w /\
    model_yml (fst (recognize_face now req w)) = model_yml w /\
    exists rows,
      ledger (fst (recognize_face now req w)) = (ledger w ++ rows)%list /\
      (List.length rows <= 1)%nat.
Proof.
  intros now req w.
  split; [ now apply (recognize_face_frame labels_json) | ].
  split; [ now apply (recognize_face_frame dataset) | ].
  split; [ now apply (recognize_face_frame model_yml) | ].
  destruct (recognize_face_ledger now req w)
    as [(name & c & _ & Hrows) | (_ & Hrows)]; rewrite Hrows.
  - eexists. split; [ reflexivity | cbn; lia ].
  - exists []. split; [ now rewrite app_nil_r | cbn; lia ].
Qed.


(* ------------------------------------------------------------------ *)
(** ** The registry file *)





(* ------------------------------------------------------------------ *)
(** ** Start-up *)

(** X12. The start-up block destroys nothing: it leaves every file that
    exists as it is (a registry that does not parse stays so), the registry
    the store stands for, the samples, the rows of the ledger and the model
    are the same after it; what was missing exists afterwards; and running
    it again changes nothing more. *)
Theorem main_init_keeps_data :
  forall (w : World),
    snd (main_init w) = Ret tt /\
    (labels_json w <> Missing ->
       labels_json (fst (main_init w)) = labels_json w) /\
    registry_of (labels_json (fst (main_init w))) = registry_of (labels_json w) /\
    entries (fst (main_init w)) = entries w /\
    ledger (fst (main_init w)) = ledger w /\
    model_yml (fst (main_init w)) = model_yml w /\
    labels_json (fst (main_init w)) <> Missing /\
    dataset (fst (main_init w)) <> None /\
    attendance_csv (fst (main_init w)) <> None /\
    main_init (fst (main_init w)) = (fst (main_init w), Ret tt).
Proof.
  intros [lj ds my ac rc]. unfold main_init; run.
  destruct lj as [ | | |v], ds as [ds|], ac as [ac|]; cbn;
    repeat split; congruence.
Qed.

(* ------------------------------------------------------------------ *)
(** ** The registry across registrations *)

Lemma canonical_numeric : forall d, canonical_keys d -> numeric_keys d.
Proof.
  unfold canonical_keys, numeric_keys, dict_keys.
  induction d as [|[k v] r IH]; cbn; intros H; [ now exists [] | ].
  inversion H as [|? ? [n ->] Hr]; subst.
  destruct (IH Hr) as [ids Hids].
  exists (n :: ids). now rewrite py_int_str, Hids.
Qed.

Lemma registry_inv_snoc : forall d n name,
  registry_inv d -> ~ In (py_str n) (dict_keys d) ->
  registry_inv (d ++ [(py_str n, name)])%list.
Proof.
  intros d n name [Hcan Hnd] Hfresh. unfold registry_inv, canonical_keys, dict_keys in *.
  rewrite map_app. cbn [map fst]. split.
  - apply Forall_app. split; [ exact Hcan | ].
    constructor; [ now exists n | constructor ].
  - apply NoDup_app; [ exact Hnd | repeat constructor; intros [] | ].
    intros k Hk [<-|[]]. now apply Hfresh.
Qed.

Lemma dict_get_In : forall d k v default,
  NoDup (dict_keys d) -> In (k, v) d -> dict_get d k default = v.
Proof.
  unfold dict_keys. induction d as [|[k0 v0] r IH]; cbn; intros k v default Hnd Hin;
    [ contradiction | ].
  inversion Hnd as [|? ? Hnotin Hnd']; subst.
  destruct Hin as [E|Hin].
  - injection E as -> ->. now rewrite String.eqb_refl.
  - destruct (String.eqb_spec k0 k) as [->|_]; [ | now apply IH ].
    exfalso. apply Hnotin. apply (in_map fst) in Hin. exact Hin.
Qed.

(** The two ways [resolve_label] ends on a registry of numerals. *)
Lemma resolve_label_cases : forall (w : World) d name,
  registry_of (labels_json w) = Some d -> numeric_keys d ->
  (exists k, find_name d name = Some k /\ In (k, name) d /\
             resolve_label name w = (w, Ret k)) \/
  (exists n, find_name d name = None /\ ~ In (py_str n) (dict_keys d) /\
             resolve_label name w
               = (with_labels_json (Holds (PyDict (d ++ [(py_str n, name)])%list)) w,
                  Ret (py_str n))).
Proof.
  intros w d name Hreg Hnum. apply load_labels_registry in Hreg.
  destruct (find_name d name) as [k|] eqn:Hfind.
  - left. exists k. pose proof (find_name_In _ _ _ Hfind) as Hin.
    split; [ reflexivity | split; [ exact Hin | ] ].
    apply (resolve_label_existing w d name k Hreg Hfind).
    apply (numeric_key_not_empty d k Hnum). apply (in_map fst) in Hin. exact Hin.
  - right. destruct (resolve_label_new w d name Hreg Hnum Hfind)
      as (n & Hrun & Hnil & Hmax).
    exists n. split; [ reflexivity | split; [ | exact Hrun ] ].
    destruct d as [|kv r]; [ intros [] | ].
    destruct Hmax as (ids & m & Hids & _ & Hall & ->); [ discriminate | ].
    intros Hk. destruct (map_int_In _ _ _ Hids Hk) as (n' & Hn' & Hi).
    rewrite py_int_str in Hn'. injection Hn' as <-.
    rewrite Forall_forall in Hall. specialize (Hall _ Hi). lia.
Qed.

(** X9. The registry is append-only across registrations.  From a registry
    whose keys are distinct and written as [str] of integers, any
    registration request, however it ends, leaves such a registry again:
    the entries it had, in their places, followed by at most one new
    entry. *)
Theorem register_face_extends_registry :
  forall now write_completes req (w : World) d,
    registry_of (labels_json w) = Some d ->
    registry_inv d ->
    exists rest,
      registry_of (labels_json (fst (register_face now write_completes req w)))
        = Some (d ++ rest)%list /\
      registry_inv (d ++ rest)%list /\
      (List.length rest <= 1)%nat.
Proof.
  intros now wc req w d Hreg Hinv.
  assert (Hsame : forall w', labels_json w' = labels_json w ->
            exists rest,
              registry_of (labels_json w') = Some (d ++ rest)%list /\
              registry_inv (d ++ rest)%list /\ (List.length rest <= 1)%nat).
  { intros w' E. exists []. rewrite app_nil_r, E. repeat split; auto; apply Hinv. }
  unfold register_face.
  destruct (form_name req) as [name|]; [ | now apply Hsame ].
  destruct (register_image req) as [bytes|]; [ | now apply Hsame ].
  destruct (imdecode bytes) as [img|]; [ | now apply Hsame ].
  unfold bind at 1. rewrite detect_face_pure.
  destruct (detectMultiScale (cvtColor_BGR2GRAY img)) as [|[[[x y] wd] h] rest];
    [ now apply Hsame | ].
  rewrite (bind_observes labels_json).
  2: { intros k. apply preserves_bind; [ now apply save_sample_frame | intros _ ].
       apply preserves_bind; [ now apply train_model_frame | intros trained ].
       destruct (negb trained); apply preserves_ret. }
  destruct (resolve_label_cases w d name Hreg (canonical_numeric d (proj1 Hinv)))
    as [(k & _ & _ & ->) | (n & _ & Hfresh & ->)].
  - now apply Hsame.
  - exists [(py_str n, name)]. cbn [fst with_labels_json labels_json registry_of].
    split; [ reflexivity | split; [ now apply registry_inv_snoc | cbn; lia ] ].
Qed.

(** X13. The id a name is registered under leads back to the name.  On a
    registry whose keys are distinct and written as [str] of integers, let
    [resolve_label] give [name] the id [k]; then [k] is [str(n)] for the
    integer [n = int(k)] that [train_model] labels the samples of this
    folder with, and in any later state with the same registry file a face
    for which the model predicts [n] below the threshold is answered with
    [name]. *)
Theorem registered_name_is_recognized :
  forall (w w1 : World) d name k,
    registry_of (labels_json w) = Some d ->
    registry_inv d ->
    resolve_label name w = (w1, Ret k) ->
    exists n,
      py_int k = Some n /\ py_str n = k /\
      forall now (w2 : World) bytes img face m score,
        labels_json w2 = labels_json w1 ->
        imdecode bytes = Some img ->
        detect_face img w2 = (w2, Ret (Some face)) ->
        model_yml w2 = Saved m ->
        recognizer_predict m face = (n, score) ->
        ltb score THRESHOLD = true ->
        snd (recognize_face now (mkRecognize (Some bytes)) w2)
          = Ret (recognized name score).
Proof.
  intros w w1 d name k Hreg Hinv Hrun.
  assert (H : exists d1 n, registry_of (labels_json w1) = Some d1 /\
                           k = py_str n /\ NoDup (dict_keys d1) /\ In (k, name) d1).
  { destruct (resolve_label_cases w d name Hreg (canonical_numeric d (proj1 Hinv)))
      as [(k0 & _ & Hin & Hrun0) | (n & _ & Hfresh & Hrun0)];
      rewrite Hrun0 in Hrun; inversion Hrun; subst.
    - destruct Hinv as [Hcan Hnd].
      unfold canonical_keys in Hcan. rewrite Forall_forall in Hcan.
      destruct (Hcan k) as [n ->]; [ apply (in_map fst) in Hin; exact Hin | ].
      exists d, n. auto.
    - exists (d ++ [(py_str n, name)])%list, n.
      split; [ reflexivity | split; [ reflexivity | split ] ].
      + apply (registry_inv_snoc d n name Hinv Hfresh).
      + apply in_or_app. right. now left. }
  destruct H as (d1 & n & Hreg1 & -> & Hnd & Hin).
  exists n. split; [ apply py_int_str | split; [ reflexivity | ] ].
  intros now w2 bytes img face m score Elabels Hdec Hface Hmodel Hpred Hlt.
  rewrite <- Elabels in Hreg1.
  rewrite (recognize_face_accepts now w2 bytes img face m n score d1
             Hdec Hface Hmodel Hpred Hlt Hreg1).
  cbn [snd]. now rewrite (dict_get_In d1 (py_str n) name "Unknown" Hnd Hin).
Qed.

(* ------------------------------------------------------------------ *)
(** ** A registration from start to end *)

Lemma lookup_put_node : forall ds k e, lookup_node (put_node ds k e) k = Some e.
Proof.
  induction ds as [|[n e'] r IH]; intros k e; cbn.
  - now rewrite String.eqb_refl.
  - destruct (String.eqb n k) eqn:E; cbn; rewrite E; [ reflexivity | apply IH ].
Qed.

Lemma lookup_put_node_other : forall ds k e k',
  k' <> k -> lookup_node (put_node ds k e) k' = lookup_node ds k'.
Proof.
  induction ds as [|[n e'] r IH]; intros k e k' Hne; cbn.
  - destruct (String.eqb_spec k k') as [E|_]; [ now symmetry in E | reflexivity ].
  - destruct (String.eqb_spec n k) as [->|Hnk]; cbn.
    + destruct (String.eqb_spec k k') as [E|_]; [ now symmetry in E | reflexivity ].
    + destruct (String.eqb n k'); [ reflexivity | now apply IH ].
Qed.

Lemma put_file_In : forall files filename c, In (filename, c) (put_file files filename c).
Proof.
  induction files as [|[n c'] r IH]; intros filename c; cbn; [ now left | ].
  destruct (String.eqb_spec n filename) as [->|_]; [ now left | right; apply IH ].
Qed.

Lemma put_file_keeps : forall files filename c other c',
  other <> filename -> In (other, c') files ->
  In (other, c') (put_file files filename c).
Proof.
  induction files as [|[n c0] r IH]; intros filename c other c' Hne Hin; cbn;
    [ contradiction | ].
  destruct Hin as [E|Hin].
  - injection E as -> ->.
    destruct (String.eqb_spec other filename); [ contradiction | now left ].
  - destruct (String.eqb n filename); right; [ exact Hin | now apply IH ].
Qed.

Lemma save_sample_run : forall (w : World) k filename face,
  lookup_node (entries w) k <> Some PlainFile ->
  save_sample k filename face w
    = (with_dataset
         (Some (put_node (entries w) k
                  (Folder (folder_after (entries w) k filename
                             (Some (jpg_roundtrip face)))))) w,
       Ret tt).
Proof.
  intros w k filename face Hnp. unfold save_sample, modify, folder_after.
  destruct (lookup_node (entries w) k) as [[|files]|]; try reflexivity; congruence.
Qed.

Lemma folder_after_In : forall ds k filename c,
  In (filename, c) (folder_after ds k filename c).
Proof.
  intros ds k filename c. unfold folder_after.
  destruct (lookup_node ds k) as [[|files]|]; try (now left). apply put_file_In.
Qed.



Lemma corpus_has_sample : forall d ds k files filename img,
  In k (dict_keys d) -> lookup_node ds k = Some (Folder files) ->
  In (filename, Some img) files -> has_image_ext filename = true ->
  ~ corpus_empty d ds.
Proof.
  intros d ds k files filename img Hk Hlook Hin Hext Hempty.
  unfold corpus_empty in Hempty. rewrite Forall_forall in Hempty.
  unfold dict_keys in Hk. apply in_map_iff in Hk as ([k0 v] & E & Hkv).
  cbn in E. subst k0. specialize (Hempty _ Hkv). cbn in Hempty.
  rewrite Hlook, Forall_forall in Hempty.
  destruct (Hempty _ Hin) as [H|H]; cbn in H; congruence.
Qed.





(* ------------------------------------------------------------------ *)
(** ** The answer "no data to train yet", and what registrations keep *)

Lemma dict_set_In : forall d k v, In (k, v) (dict_set d k v).
Proof.
  induction d as [|[k0 v0] r IH]; intros k v; cbn; [ now left | ].
  destruct (String.eqb_spec k0 k) as [->|_]; [ now left | right; apply IH ].
Qed.

Lemma allocate_label_any : forall d name (w w1 : World) k,
  allocate_label d name w = (w1, Ret k) ->
  w1 = with_labels_json (Holds (PyDict (dict_set d k name))) w.
Proof.
  intros d name w w1 k. unfold allocate_label, save_labels; run.
  destruct (get_next_label_id d) as [k'|e]; [ | discriminate ].
  destruct (labels_json w); intros H; inversion H; reflexivity.
Qed.

(** However the registry reads, an id that [resolve_label] returns is a key
    of the registry it leaves, with the name for value. *)
Lemma resolve_label_any : forall name (w w1 : World) k,
  resolve_label name w = (w1, Ret k) ->
  exists d1, registry_of (labels_json w1) = Some d1 /\ In (k, name) d1 /\
             dataset w1 = dataset w /\ model_yml w1 = model_yml w /\
             recognizer w1 = recognizer w.
Proof.
  intros name w w1 k Hrun.
  assert (Halloc : forall d, allocate_label d name w = (w1, Ret k) ->
            exists d1, registry_of (labels_json w1) = Some d1 /\ In (k, name) d1 /\
                       dataset w1 = dataset w /\ model_yml w1 = model_yml w /\
                       recognizer w1 = recognizer w).
  { intros d H. apply allocate_label_any in H. subst w1.
    exists (dict_set d k name). cbn. repeat split. apply dict_set_In. }
  assert (Hfound : forall d, registry_of (labels_json w) = Some d ->
            match find_name d name with
            | Some k0 =>
                if falsy (find_name d name) then allocate_label d name else ret k0
            | None => allocate_label d name
            end w = (w1, Ret k) ->
            exists d1, registry_of (labels_json w1) = Some d1 /\ In (k, name) d1 /\
                       dataset w1 = dataset w /\ model_yml w1 = model_yml w /\
                       recognizer w1 = recognizer w).
  { intros d Hreg H. destruct (find_name d name) as [k0|] eqn:Hfind;
      [ | now apply (Halloc d) ].
    destruct (falsy (Some k0)); [ now apply (Halloc d) | ].
    inversion H; subst. exists d. repeat split; auto.
    now apply find_name_In. }
  destruct (registry_of (labels_json w)) as [d|] eqn:Hreg.
  - pose proof (proj2 (load_labels_registry w d) Hreg) as Hload.
    unfold resolve_label in Hrun. unfold bind at 1 in Hrun. rewrite Hload in Hrun.
    unfold bind at 1, lift in Hrun. cbn [py_items] in Hrun.
    apply (Hfound d); [ reflexivity | exact Hrun ].
  - unfold resolve_label, load_labels, bind, gets, ret, raise, lift in Hrun.
    destruct (labels_json w) as [ | | |[d|]]; cbn in Hreg, Hrun; discriminate.
Qed.

Lemma train_model_false : forall write_completes (w w' : World),
  train_model write_completes w = (w', Ret false) ->
  exists d, registry_of (labels_json w) = Some d /\
            corpus_empty d (entries w) /\
            w' = with_dataset (Some (entries w)) w.
Proof.
  intros wc w w'. unfold train_model.
  destruct (registry_of (labels_json w)) as [d|] eqn:Hreg.
  - pose proof (proj2 (load_labels_registry w d) Hreg) as Hload.
    unfold bind at 1. rewrite Hload. run.
    cbn [py_items entries dataset with_dataset].
    fold (entries w).
    destruct (scan_dataset d (entries w) ([], [])) as [[faces labels]|e] eqn:Hscan;
      [ | discriminate ].
    cbn [fst snd]. destruct faces as [|f faces'].
    + cbn [List.length Nat.eqb]. intros H. inversion H. exists d.
      split; [ reflexivity | split; [ | reflexivity ] ].
      now apply (scan_dataset_grows _ _ _ _ Hscan).
    + cbn [List.length Nat.eqb]. unfold recognizer_save; run.
      cbn [recognizer with_recognizer]. destruct wc; discriminate.
  - unfold load_labels; run.
    destruct (labels_json w) as [ | | |[d|]]; cbn in Hreg |- *; discriminate.
Qed.

(** X2. The answer "Registered face, but no data to train yet." is given
    only when the sample was not stored, which in this model of the file
    system means that dataset/<id> is a plain file: the name has an id in
    the registry, nothing is under dataset/ that was not there, and the
    model file and the recognizer in memory are as the request found them.
    A registration whose sample is stored always has something to train
    on. *)
Theorem registered_untrained_means_unsaved :
  forall now write_completes req (w w' : World),
    register_face now write_completes req w = (w', Ret registered_untrained) ->
    exists name k d1,
      form_name req = Some name /\
      registry_of (labels_json w') = Some d1 /\ In (k, name) d1 /\
      lookup_node (entries w) k = Some PlainFile /\
      entries w' = entries w /\
      model_yml w' = model_yml w /\ recognizer w' = recognizer w.
Proof.
  intros now wc req w w'. unfold register_face.
  destruct (form_name req) as [name|]; [ | discriminate ].
  destruct (register_image req) as [bytes|]; [ | discriminate ].
  destruct (imdecode bytes) as [img|]; [ | discriminate ].
  unfold bind at 1. rewrite detect_face_pure.
  destruct (detectMultiScale (cvtColor_BGR2GRAY img)) as [|[[[x y] wd] h] others];
    [ discriminate | ].
  set (face := resize _ FIXED_SIZE).
  unfold bind at 1.
  destruct (resolve_label name w) as [w1 [k|e]] eqn:Hres; [ | discriminate ].
  destruct (resolve_label_any name w w1 k Hres)
    as (d1 & Hreg1 & Hin & Hds & Hmodel & Hrec).
  assert (Hent : entries w1 = entries w) by (unfold entries; now rewrite Hds).
  fold (sample_filename now).
  destruct (lookup_node (entries w1) k) as [[|files]|] eqn:Hlook.
  - (* dataset/<id> is a plain file: nothing is written *)
    unfold bind at 1. unfold save_sample, modify. rewrite Hlook.
    unfold bind at 1.
    destruct (train_model wc w1) as [w3 [[|]|e]] eqn:Htrain; try discriminate.
    cbn [negb]. intros H. inversion H; subst w3.
    destruct (train_model_false wc w1 w' Htrain) as (d & Hreg & _ & ->).
    exists name, k, d1. cbn [labels_json with_dataset entries dataset model_yml
                             recognizer].
    rewrite <- Hent. fold (entries w1). repeat split; auto.
  - (* the sample is stored: the scan finds it *)
    unfold bind at 1.
    rewrite save_sample_run by (rewrite Hlook; discriminate).
    unfold bind at 1.
    match goal with
    | |- context [train_model wc ?w2] =>
        destruct (train_model wc w2) as [w3 [[|]|e]] eqn:Htrain; try discriminate
    end.
    exfalso. apply train_model_false in Htrain as (d & Hreg & Hempty & _).
    cbn [labels_json with_dataset entries dataset] in Hreg, Hempty.
    rewrite Hreg1 in Hreg. injection Hreg as <-.
    eapply (corpus_has_sample d1); [ | | | | exact Hempty ].
    + apply (in_map fst) in Hin. exact Hin.
    + apply lookup_put_node.
    + apply folder_after_In.
    + apply sample_filename_ext.
  - unfold bind at 1.
    rewrite save_sample_run by (rewrite Hlook; discriminate).
    unfold bind at 1.
    match goal with
    | |- context [train_model wc ?w2] =>
        destruct (train_model wc w2) as [w3 [[|]|e]] eqn:Htrain; try discriminate
    end.
    exfalso. apply train_model_false in Htrain as (d & Hreg & Hempty & _).
    cbn [labels_json with_dataset entries dataset] in Hreg, Hempty.
    rewrite Hreg1 in Hreg. injection Hreg as <-.
    eapply (corpus_has_sample d1); [ | | | | exact Hempty ].
    + apply (in_map fst) in Hin. exact Hin.
    + apply lookup_put_node.
    + apply folder_after_In.
    + apply sample_filename_ext.
Qed.

Lemma save_sample_keeps : forall (w : World) k0 filename0 face k filename c,
  has_sample (entries w) k filename c ->
  k <> k0 \/ filename <> filename0 ->
  has_sample (entries (fst (save_sample k0 filename0 face w))) k filename c.
Proof.
  intros w k0 filename0 face k filename c (files & Hlook & Hin) Hne.
  unfold save_sample, modify. cbn [fst].
  destruct (String.eqb_spec k k0) as [->|Hk].
  - destruct Hne as [Hne|Hne]; [ contradiction | ].
    rewrite Hlook. cbn [entries dataset with_dataset].
    exists (put_file files filename0 (Some (jpg_roundtrip face))).
    split; [ apply lookup_put_node | now apply put_file_keeps ].
  - exists files. split; [ | exact Hin ].
    destruct (lookup_node (entries w) k0) as [[|files0]|];
      cbn [entries dataset with_dataset]; fold (entries w);
      try (rewrite lookup_put_node_other by exact Hk); exact Hlook.
Qed.

(** X17. A registration deletes no sample.  Whatever the request, the
    state and the way it ends, a file of dataset/ whose name is not the one
    this request writes to is afterwards where it was, with the content it
    had. *)
Theorem register_face_keeps_samples :
  forall now write_completes req (w : World) k filename content,
    has_sample (entries w) k filename content ->
    filename <> sample_filename now ->
    has_sample (entries (fst (register_face now write_completes req w)))
      k filename content.
Proof.
  intros now wc req w k filename content Hhas Hne. unfold register_face.
  destruct (form_name req) as [name|]; [ | exact Hhas ].
  destruct (register_image req) as [bytes|]; [ | exact Hhas ].
  destruct (imdecode bytes) as [img|]; [ | exact Hhas ].
  unfold bind at 1. rewrite detect_face_pure.
  destruct (detectMultiScale (cvtColor_BGR2GRAY img)) as [|[[[x y] wd] h] others];
    [ exact Hhas | ].
  pose proof (resolve_label_frame entries name (fun v w0 => eq_refl) w) as Hent.
  unfold bind at 1.
  destruct (resolve_label name w) as [w1 [k1|e]]; cbn [fst] in Hent;
    [ | cbn [fst]; now rewrite Hent ].
  rewrite (bind_observes entries).
  2: { intros _. apply preserves_bind; [ | intros trained;
         destruct (negb trained); apply preserves_ret ].
       apply train_model_frame; intros; reflexivity. }
  fold (sample_filename now). apply save_sample_keeps; [ | now right ].
  now rewrite Hent.
Qed.


(* ------------------------------------------------------------------ *)
(** ** What [train_model] collects, and when it stops on [int] *)

Lemma scan_folder_pairs : forall (R : Mat -> Z -> Prop) k files acc acc',
  (forall filename img l,
     In (filename, Some img) files -> has_image_ext filename = true ->
     py_int k = Some l -> R (resize img FIXED_SIZE) l) ->
  scan_folder k files acc = Ret acc' ->
  Forall2 R (fst acc) (snd acc) -> Forall2 R (fst acc') (snd acc').
Proof.
  intros R k files. induction files as [|[filename content] rest IH];
    intros acc acc' HR Hscan Hacc; cbn [scan_folder] in Hscan.
  - now inversion Hscan; subst.
  - assert (HR' : forall fn img l,
              In (fn, Some img) rest -> has_image_ext fn = true ->
              py_int k = Some l -> R (resize img FIXED_SIZE) l)
      by (intros fn img l Hin; apply HR; now right).
    destruct (has_image_ext filename) eqn:Hext; [ | now apply (IH acc) ].
    destruct content as [img|]; [ | now apply (IH acc) ].
    destruct (py_int k) as [l|] eqn:Hk; [ | discriminate Hscan ].
    apply (IH _ _ HR' Hscan). cbn [fst snd].
    apply Forall2_app; [ exact Hacc | ].
    constructor; [ | constructor ]. apply (HR filename); auto. now left.
Qed.

Lemma scan_dataset_pairs : forall (R : Mat -> Z -> Prop) ds d acc acc',
  (forall k files filename img l,
     In k (dict_keys d) -> lookup_node ds k = Some (Folder files) ->
     In (filename, Some img) files -> has_image_ext filename = true ->
     py_int k = Some l -> R (resize img FIXED_SIZE) l) ->
  scan_dataset d ds acc = Ret acc' ->
  Forall2 R (fst acc) (snd acc) -> Forall2 R (fst acc') (snd acc').
Proof.
  intros R ds. induction d as [|[k v] rest IH]; intros acc acc' HR Hscan Hacc;
    cbn [scan_dataset] in Hscan.
  - now inversion Hscan; subst.
  - assert (HR' : forall k0 files filename img l,
              In k0 (dict_keys rest) -> lookup_node ds k0 = Some (Folder files) ->
              In (filename, Some img) files -> has_image_ext filename = true ->
              py_int k0 = Some l -> R (resize img FIXED_SIZE) l)
      by (intros k0 files filename img l Hin; apply HR; now right).
    destruct (lookup_node ds k) as [[|files]|] eqn:Hlook;
      try now apply (IH acc).
    destruct (scan_folder k files acc) as [acc1|e] eqn:Hfolder;
      [ | discriminate Hscan ].
    apply (IH acc1 acc' HR' Hscan).
    apply (scan_folder_pairs R k files acc acc1); auto.
    intros filename img l. apply (HR k files). now left. exact Hlook.
Qed.

(** X10. The training set is aligned and normalised.  When the scan of
    dataset/ ends, the faces and the labels come in pairs: each face is a
    stored image that decodes, from the folder of a registered id, resized
    to [FIXED_SIZE], and its label is that id as an integer.  So the two
    lists have one length, and with an OpenCV that resizes as asked every
    face is 200 by 200, whatever the sizes of the stored files. *)
Theorem scan_dataset_normalised :
  forall d ds faces labels,
    scan_dataset d ds ([], []) = Ret (faces, labels) ->
    Forall2 (sample_of d ds) faces labels /\
    List.length faces = List.length labels /\
    (OpenCV_contract -> samples_nonempty ds ->
     Forall (fun face => shape face = (200, 200)%nat) faces).
Proof.
  intros d ds faces labels Hscan.
  assert (Hpairs : Forall2 (sample_of d ds) faces labels).
  { apply (scan_dataset_pairs (sample_of d ds) ds d ([], []) (faces, labels));
      [ | exact Hscan | constructor ].
    intros k files filename img l Hk Hlook Hin Hext Hint.
    exists k, filename, img. repeat split; auto. now exists files. }
  split; [ exact Hpairs | split ].
  - clear Hscan. induction Hpairs; cbn; [ reflexivity | now f_equal ].
  - intros Hcv Hnonempty. clear Hscan.
    induction Hpairs as [|face l faces labels Hs _ IH]; constructor; [ | exact IH ].
    destruct Hs as (k & filename & img & _ & (files & Hlook & Hin) & _ & _ & ->).
    destruct (Hnonempty k files filename img Hlook Hin) as [Hr Hc].
    unfold shape, FIXED_SIZE.
    destruct (@resize_shape cv Hcv img 200%nat 200%nat Hr Hc) as (-> & -> & _).
    reflexivity.
Qed.







(* ------------------------------------------------------------------ *)
(** ** Recognitions in a row, and what a recognition reads *)

(** X6. One ledger row for each recognition, with no deduplication.  When
    an upload is recognised as [name], sending it once at each of the
    times [nows] gives the same answer each time and appends one row for
    each, in order, whether or not the name already has a row, also for
    that very second. *)
Theorem recognize_each_appends :
  forall nows (w : World) bytes img face m label score d,
    imdecode bytes = Some img ->
    detect_face img w = (w, Ret (Some face)) ->
    model_yml w = Saved m ->
    recognizer_predict m face = (label, score) ->
    ltb score THRESHOLD = true ->
    registry_of (labels_json w) = Some d ->
    exists w',
      recognize_each nows (mkRecognize (Some bytes)) w
        = (w', Ret (map (fun _ => recognized (dict_get d (py_str label) "Unknown")
                                    score) nows)) /\
      ledger w'
        = (ledger w ++
           map (fun now => [dict_get d (py_str label) "Unknown";
                            strftime "%Y-%m-%d %H:%M:%S" now]) nows)%list.
Proof.
  induction nows as [|now later IH];
    intros w bytes img face m label score d Hdec Hface Hmodel Hpred Hlt Hreg.
  - exists w. cbn. now rewrite app_nil_r.
  - cbn [recognize_each map]. unfold bind at 1.
    rewrite (recognize_face_accepts now w bytes img face m label score d
               Hdec Hface Hmodel Hpred Hlt Hreg).
    set (w1 := with_attendance_csv _ _).
    assert (Hface1 : detect_face img w1 = (w1, Ret (Some face))).
    { rewrite detect_face_pure in Hface |- *. now inversion Hface. }
    destruct (IH w1 bytes img face m label score d Hdec Hface1 Hmodel Hpred Hlt Hreg)
      as (w' & Hrun & Hledger).
    exists w'. unfold bind at 1. rewrite Hrun. split; [ reflexivity | ].
    rewrite Hledger. unfold w1, ledger at 1.
    cbn [attendance_csv with_attendance_csv]. now rewrite <- app_assoc.
Qed.

(** The handler by cases: up to the reading of the model the state plays
    no part but for the model file. *)
Lemma recognize_face_cases : forall now req,
  exists K : Model -> Mat -> M response, forall w0 : World,
    recognize_face now req w0 =
      match recognize_image req with
      | None => (w0, Ret image_required)
      | Some bytes =>
          match imdecode bytes with
          | None => (w0, Ret invalid_image)
          | Some img =>
              match detectMultiScale (cvtColor_BGR2GRAY img) with
              | [] => (w0, Ret no_face_recognize)
              | (x, y, wd, h) :: _ =>
                  match model_yml w0 with
                  | NoModel => (w0, Ret model_not_trained)
                  | Torn => (w0, Raise Cv2Error)
                  | Saved m =>
                      K m (resize (crop (cvtColor_BGR2GRAY img) y (y + h) x (x + wd))
                             FIXED_SIZE)
                        (with_recognizer (Some m) w0)
                  end
              end
          end
      end.
Proof.
  intros now req.
  exists (fun m face =>
            let (label_id, confidence) return M response :=
              recognizer_predict m face in
            if ltb confidence THRESHOLD then
              labels_dict <- load_labels ;;
              name <- lift (py_get labels_dict (py_str label_id) "Unknown") ;;
              mark_attendance now name ;;
              ret (recognized name confidence)
            else ret (not_recognized confidence)).
  intros w0. unfold recognize_face.
  destruct (recognize_image req) as [bytes|]; [ | reflexivity ].
  destruct (imdecode bytes) as [img|]; [ | reflexivity ].
  unfold bind at 1. rewrite detect_face_pure.
  destruct (detectMultiScale (cvtColor_BGR2GRAY img)) as [|[[[x y] wd] h] others];
    [ reflexivity | ].
  unfold load_model. unfold bind at 1. unfold bind at 1. unfold gets at 1.
  destruct (model_yml w0) as [ | |m]; reflexivity.
Qed.

(** X18. A recognition reads the model from model_eigen.yml, never from
    what an earlier request left in memory: with another recognizer in
    memory at the start the answer is the same, and so is the state
    afterwards, up to the recognizer in memory; and when the model file is
    read, the states afterwards are the same altogether. *)
Theorem recognize_face_rereads_model :
  forall now req (w : World) r,
    snd (recognize_face now req (with_recognizer r w))
      = snd (recognize_face now req w) /\
    (forall r',
       with_recognizer r' (fst (recognize_face now req (with_recognizer r w)))
         = with_recognizer r' (fst (recognize_face now req w))) /\
    (forall m bytes img face,
       model_yml w = Saved m ->
       recognize_image req = Some bytes -> imdecode bytes = Some img ->
       detect_face img w = (w, Ret (Some face)) ->
       recognize_face now req (with_recognizer r w) = recognize_face now req w).
Proof.
  intros now req w r. destruct (recognize_face_cases now req) as [K HK].
  rewrite !HK. cbn [model_yml with_recognizer].
  destruct (recognize_image req) as [bytes|];
    [ | repeat split; intros; discriminate ].
  destruct (imdecode bytes) as [img|] eqn:Hdec;
    [ | repeat split; intros m b i f _ Hb Hi; injection Hb as <-; congruence ].
  destruct (detectMultiScale (cvtColor_BGR2GRAY img)) as [|[[[x y] wd] h] others]
    eqn:Hdet.
  - repeat split. intros m b i f _ Hb Hi Hface. injection Hb as <-.
    rewrite Hdec in Hi. injection Hi as <-.
    rewrite detect_face_pure, Hdet in Hface. discriminate Hface.
  - destruct (model_yml w) as [ | |m]; repeat split; intros; discriminate.
Qed.

(* ------------------------------------------------------------------ *)
(** ** Sample file names *)

Lemma zero_padded_length : forall width n, String.length (zero_padded width n) = width.
Proof.
  induction width as [|width IH]; intros n; cbn [zero_padded]; [ reflexivity | ].
  rewrite string_length_app, IH. cbn [String.length]. lia.
Qed.

Lemma append_inj : forall a a' b b',
  String.length a = String.length a' -> a ++ b = a' ++ b' -> a = a' /\ b = b'.
Proof.
  induction a as [|c a IH]; intros [|c' a'] b b' Hlen H; cbn in Hlen;
    try discriminate Hlen.
  - now split.
  - cbn [append] in H. injection H as -> H. injection Hlen as Hlen.
    destruct (IH a' b b' Hlen H) as [-> ->]. now split.
Qed.

Lemma string_cons_inj : forall c a b, String c a = String c b -> a = b.
Proof. intros c a b H. now injection H. Qed.

Lemma digit_char_inj : forall a b,
  0 <= a < 10 -> 0 <= b < 10 -> digit_char a = digit_char b -> a = b.
Proof.
  intros a b Ha Hb H. apply (f_equal digit_val) in H.
  rewrite !digit_val_char in H by assumption. now injection H.
Qed.

Lemma zero_padded_inj : forall width n m,
  0 <= n < 10 ^ Z.of_nat width -> 0 <= m < 10 ^ Z.of_nat width ->
  zero_padded width n = zero_padded width m -> n = m.
Proof.
  induction width as [|width IH]; intros n m Hn Hm H.
  - cbn in Hn, Hm. lia.
  - rewrite Nat2Z.inj_succ, Z.pow_succ_r in Hn, Hm by lia.
    cbn [zero_padded] in H.
    apply append_inj in H as [Hhigh Hlow];
      [ | now rewrite !zero_padded_length ].
    injection Hlow as Hlow.
    apply digit_char_inj in Hlow; try (apply Z.mod_pos_bound; lia).
    apply IH in Hhigh; try (split; [ apply Z.div_pos; lia
                                   | apply Z.div_lt_upper_bound; lia ]).
    rewrite (Z.div_mod n 10), (Z.div_mod m 10) by lia. now rewrite Hhigh, Hlow.
Qed.

Lemma sample_filename_text : forall t,
  sample_filename t =
    (zero_padded 4 (year t) ++ zero_padded 2 (month t) ++ zero_padded 2 (day t)
     ++ String "_" (zero_padded 2 (hour t) ++ zero_padded 2 (minute t)
                    ++ zero_padded 2 (second t)
                    ++ zero_padded 6 (microsecond t) ++ "")) ++ ".jpg".
Proof.
  intros t. unfold sample_filename.
  cbn [strftime directive Ascii.eqb Bool.eqb]. reflexivity.
Qed.

(** X16. Sample file names tell the instants apart.  For two times of the
    clock (years of four digits), the names [register_face] gives its
    samples are equal only when the times are, to the microsecond; so a
    sample overwrites another one only when both were taken in the same
    microsecond for the same id. *)
Theorem sample_filename_inj :
  forall t1 t2,
    wf_datetime t1 -> wf_datetime t2 ->
    sample_filename t1 = sample_filename t2 -> t1 = t2.
Proof.
  intros [y1 mo1 d1 h1 mi1 s1 us1] [y2 mo2 d2 h2 mi2 s2 us2]
         (Hy1 & Hmo1 & Hd1 & Hh1 & Hmi1 & Hs1 & Hus1)
         (Hy2 & Hmo2 & Hd2 & Hh2 & Hmi2 & Hs2 & Hus2) H.
  cbn [year month day hour minute second microsecond] in *.
  rewrite !sample_filename_text in H.
  cbn [year month day hour minute second microsecond] in H.
  apply append_inj in H as [H _];
    [ | rewrite !string_length_app; cbn [String.length];
        rewrite !string_length_app, !zero_padded_length; reflexivity ].
  apply append_inj in H as [Hy H]; [ | now rewrite !zero_padded_length ].
  apply append_inj in H as [Hmo H]; [ | now rewrite !zero_padded_length ].
  apply append_inj in H as [Hd H]; [ | now rewrite !zero_padded_length ].
  apply string_cons_inj in H.
  apply append_inj in H as [Hh H]; [ | now rewrite !zero_padded_length ].
  apply append_inj in H as [Hmi H]; [ | now rewrite !zero_padded_length ].
  apply append_inj in H as [Hs H]; [ | now rewrite !zero_padded_length ].
  apply append_inj in H as [Hus _]; [ | now rewrite !zero_padded_length ].
  apply zero_padded_inj in Hy, Hmo, Hd, Hh, Hmi, Hs, Hus;
    try (change (10 ^ Z.of_nat 4) with 10000);
    try (change (10 ^ Z.of_nat 2) with 100);
    try (change (10 ^ Z.of_nat 6) with 1000000); try lia.
  now subst.
Qed.

(* ------------------------------------------------------------------ *)
(** ** The exceptions of the two routes *)

Lemma get_next_label_id_numeral : forall d k,
  get_next_label_id d = Ret k -> exists n, k = py_str n.
Proof.
  intros d k. unfold get_next_label_id. destruct d as [|kv r].
  - intros H. inversion H. now exists 1.
  - destruct (map_int (dict_keys (kv :: r))) as [ids|]; [ | discriminate ].
    destruct (py_max ids) as [m|]; [ | discriminate ].
    intros H. inversion H. now exists (m + 1).
Qed.

Lemma numeric_keys_dict_set : forall d n v,
  numeric_keys d -> numeric_keys (dict_set d (py_str n) v).
Proof.
  unfold numeric_keys, dict_keys.
  induction d as [|[k0 v0] r IH]; intros n v [ids Hids]; cbn [dict_set map fst].
  - exists [n]. cbn. now rewrite py_int_str.
  - cbn [map fst map_int] in Hids.
    destruct (py_int k0) as [n0|] eqn:Hk0; [ | discriminate Hids ].
    destruct (map_int (map fst r)) as [ids'|] eqn:Hr; [ | discriminate Hids ].
    destruct (String.eqb k0 (py_str n)).
    + exists ids. cbn [map fst map_int]. now rewrite Hk0, Hr.
    + destruct (IH n v) as [ids1 Hids1]; [ now exists ids' | ].
      exists (n0 :: ids1). cbn [map fst map_int]. now rewrite Hk0, Hids1.
Qed.






(* ------------------------------------------------------------------ *)
(** ** From training to recognition *)

(** X21. A model trained on the present corpus names only registered
    people.  With a registry whose keys are distinct and written as [str]
    of integers, let model_eigen.yml hold the model trained on what the
    scan of dataset/ gives now.  Then a recognition whose predicted label
    is one of the labels trained on, below the threshold, answers with the
    name the registry has for that label, never with the default
    "Unknown". *)
Theorem trained_label_is_registered :
  forall now (w : World) d faces labels bytes img face label score,
    registry_of (labels_json w) = Some d ->
    registry_inv d ->
    scan_dataset d (entries w) ([], []) = Ret (faces, labels) ->
    model_yml w = Saved (recognizer_train faces labels) ->
    imdecode bytes = Some img ->
    detect_face img w = (w, Ret (Some face)) ->
    recognizer_predict (recognizer_train faces labels) face = (label, score) ->
    In label labels ->
    ltb score THRESHOLD = true ->
    exists name,
      In (py_str label, name) d /\
      snd (recognize_face now (mkRecognize (Some bytes)) w)
        = Ret (recognized name score).
Proof.
  intros now w d faces labels bytes img face label score
         Hreg [Hcan Hnd] Hscan Hmodel Hdec Hface Hpred Hin Hlt.
  assert (Hpairs : Forall2 (sample_of d (entries w)) faces labels).
  { apply (scan_dataset_pairs _ (entries w) d ([], []) (faces, labels));
      [ | exact Hscan | constructor ].
    intros k files filename img0 l Hk Hlook Hin0 Hext Hint.
    exists k, filename, img0. repeat split; auto. now exists files. }
  assert (Hkey : In (py_str label) (dict_keys d)).
  { clear Hscan Hmodel Hpred. induction Hpairs as [|f l fs ls Hs _ IH];
      [ contradiction | ].
    destruct Hin as [->|Hin]; [ | now apply IH ].
    destruct Hs as (k & _ & _ & Hk & _ & _ & Hint & _).
    unfold canonical_keys in Hcan. rewrite Forall_forall in Hcan.
    destruct (Hcan k Hk) as [n ->]. rewrite py_int_str in Hint.
    now injection Hint as <-. }
  unfold dict_keys in Hkey. apply in_map_iff in Hkey as ([k name] & E & Hentry).
  cbn [fst] in E. subst k. exists name. split; [ exact Hentry | ].
  rewrite (recognize_face_accepts now w bytes img face _ label score d
             Hdec Hface Hmodel Hpred Hlt Hreg).
  cbn [snd]. now rewrite (dict_get_In d (py_str label) name "Unknown" Hnd Hentry).
Qed.
End Extras.

(* ------------------------------------------------------------------ *)
(** ** The further properties at concrete inputs *)

Lemma alice_registry_inv : registry_inv [("1", "alice")].
Proof.
  split.
  - constructor; [ now exists 1 | constructor ].
  - constructor; [ intros [] | constructor ].
Defined.

Lemma alice_samples_nonempty : forall distance,
  @samples_nonempty (entries (alice_world distance)).
Proof.
  intros distance k files filename img Hlook Hin.
  unfold alice_world, entries in Hlook. cbn [dataset lookup_node] in Hlook.
  destruct (String.eqb "1" k); [ | discriminate Hlook ].
  injection Hlook as <-. destruct Hin as [E|[]]. injection E as _ <-. cbn. lia.
Defined.



(** X2 at a registration into a deployment where dataset/1 is a plain
    file. *)
Lemma registered_untrained_means_unsaved_witness :
  exists k, lookup_node (entries (blocked_world 100)) k = Some PlainFile.
Proof.
  pose (w' := fst (register_face request_start true
                     (mkRegister (Some "alice") (Some face_upload))
                     (blocked_world 100))).
  assert (Hrun : register_face request_start true
                   (mkRegister (Some "alice") (Some face_upload))
                   (blocked_world 100)
                 = (w', Ret registered_untrained)) by reflexivity.
  destruct (@registered_untrained_means_unsaved (toy_cv 100) request_start true
              _ _ _ Hrun) as (name & k & d1 & _ & _ & _ & Hplain & _).
  exists k. exact Hplain.
Defined.

(** X6 at two recognitions of alice within one second. *)
Lemma recognize_each_appends_witness :
  ledger (fst (recognize_each [request_start; clock_reading]
                 (mkRecognize (Some face_upload)) (alice_world 100)))
  = [["alice"; "2024-05-17 11:59:30"]; ["alice"; "2024-05-17 12:00:00"];
     ["alice"; "2024-05-17 12:00:00"]].
Proof.
  destruct (@recognize_each_appends (toy_cv 100) [request_start; clock_reading]
              (alice_world 100) face_upload _ _ [1] 1 100%float
              [("1", "alice")] eq_refl eq_refl eq_refl eq_refl eq_refl eq_refl)
    as (w' & Hrun & Hledger).
  rewrite Hrun. cbn [fst]. rewrite Hledger. reflexivity.
Defined.

(** X9 at the registration of a second person. *)
Lemma register_face_extends_registry_witness :
  exists rest,
    registry_of
      (labels_json (fst (register_face clock_reading true
                           (mkRegister (Some "bob") (Some face_upload))
                           (alice_world 100))))
    = Some ([("1", "alice")] ++ rest)%list /\
    (List.length rest <= 1)%nat.
Proof.
  destruct (@register_face_extends_registry (toy_cv 100) clock_reading true
              (mkRegister (Some "bob") (Some face_upload)) (alice_world 100)
              [("1", "alice")] eq_refl alice_registry_inv)
    as (rest & Hreg & _ & Hlen).
  exists rest. split; assumption.
Defined.

(** X10 at the corpus of one sample. *)
Lemma scan_dataset_normalised_witness :
  exists faces labels,
    @scan_dataset (toy_cv 100) [("1", "alice")] (entries (alice_world 100)) ([], [])
      = Ret (faces, labels) /\
    List.length faces = List.length labels /\
    Forall (fun face => shape face = (200, 200)%nat) faces.
Proof.
  pose (acc := match @scan_dataset (toy_cv 100) [("1", "alice")]
                       (entries (alice_world 100)) ([], []) with
               | Ret a => a
               | Raise _ => ([], [])
               end).
  assert (Hscan : @scan_dataset (toy_cv 100) [("1", "alice")]
                    (entries (alice_world 100)) ([], [])
                  = Ret (fst acc, snd acc)) by reflexivity.
  destruct (@scan_dataset_normalised (toy_cv 100) _ _ _ _ Hscan)
    as (_ & Hlen & Hshape).
  exists (fst acc), (snd acc).
  split; [ exact Hscan | split; [ exact Hlen | ] ].
  exact (Hshape (toy_contract 100) (alice_samples_nonempty 100)).
Defined.

(** X13 at alice, registered under id 1. *)
Lemma registered_name_is_recognized_witness :
  exists n, py_int "1" = Some n /\ py_str n = "1".
Proof.
  destruct (@registered_name_is_recognized (toy_cv 100) (alice_world 100)
              (alice_world 100) [("1", "alice")] "alice" "1"
              eq_refl alice_registry_inv eq_refl) as (n & Hint & Hstr & _).
  exists n. split; assumption.
Defined.



(** X16 at the start of the request: the instant its sample name stands
    for. *)
Lemma sample_filename_inj_witness :
  request_start = mkDatetime 2024 5 17 12 0 0 500000.
Proof.
  exact (sample_filename_inj request_start (mkDatetime 2024 5 17 12 0 0 500000)
           wf_request_start wf_request_start eq_refl).
Defined.

(** X17 at the registration of a second person: alice's sample stays. *)
Lemma register_face_keeps_samples_witness :
  has_sample
    (entries (fst (register_face clock_reading true
                     (mkRegister (Some "bob") (Some face_upload))
                     (alice_world 100))))
    "1" "20240517_115900000000.jpg" (Some (mkMat 200 200 1 (fun _ _ _ => 128))).
Proof.
  apply (@register_face_keeps_samples (toy_cv 100)).
  - eexists. split; [ reflexivity | now left ].
  - intros H. vm_compute in H. discriminate H.
Defined.



(** X21 at alice's model and corpus. *)
Lemma trained_label_is_registered_witness :
  exists name,
    In (py_str 1, name) [("1", "alice")] /\
    snd (recognize_face clock_reading (mkRecognize (Some face_upload))
           (alice_world 100))
    = Ret (recognized name 100).
Proof.
  pose (acc := match @scan_dataset (toy_cv 100) [("1", "alice")]
                       (entries (alice_world 100)) ([], []) with
               | Ret a => a
               | Raise _ => ([], [])
               end).
  assert (Hscan : @scan_dataset (toy_cv 100) [("1", "alice")]
                    (entries (alice_world 100)) ([], [])
                  = Ret (fst acc, snd acc)) by reflexivity.
  apply (@trained_label_is_registered (toy_cv 100) clock_reading
           (alice_world 100) [("1", "alice")] (fst acc) (snd acc)
           face_upload _ _ 1 100%float
           eq_refl alice_registry_inv Hscan eq_refl eq_refl eq_refl eq_refl).
  - now left.
  - reflexivity.
Defined.
